(** * Capitalization checker: the matching-and-correction engine

    A shallow embedding of [src/geo_capitalizer.py] (the Name Store client)
    and [src/integrated_capitalizer.py] (Word Resolver, Phrase Scanner,
    Text Rewriter, Analysis Report Builder), followed by the properties
    of the specification that concern them.  The phrase rules of the
    Name Store client, the rate limiter and the checking handlers of
    [src/app_production.py] and the importer of
    [src/geonames_downloader.py] come after them, with further
    properties of the code.

    Text is modelled as [string] over 7-bit ASCII: the letters [A-Z] and
    [a-z] are the only cased characters, and the white space characters
    are the ASCII ones Python knows (code points 9-13, 28-31 and 32).
    The remaining byte values stand for uncased characters that are not
    white space.

    Python exceptions are modelled with [option]: [None] is a raised
    [IndexError] that nothing catches.

    The Name Store answers every query: [lookup] is a function, and an
    exception of the database has no counterpart.  On text that is not
    ASCII the string methods of Python do more than their models here
    ([str.lower], [str.title] and [str.capitalize] map letters outside
    [A-Z] and [a-z], [str.split] takes other white space); a property
    that depends on it states [Py.isascii]. *)

From Stdlib Require Import Ascii String NArith.
From stdpp Require Import gmap strings list sorting.


(** ** Python string primitives *)

Module Py.

Definition code (c : ascii) : N := N_of_ascii c.

(** [ch.isupper()] and [ch.islower()] for one character of ASCII text *)
Definition isupper (c : ascii) : bool :=
  ((65 <=? code c) && (code c <=? 90))%N.

Definition islower (c : ascii) : bool :=
  ((97 <=? code c) && (code c <=? 122))%N.

Definition iscased (c : ascii) : bool := isupper c || islower c.

(** [ch.isspace()]: the white space of ASCII text *)
Definition isspace (c : ascii) : bool :=
  (((9 <=? code c) && (code c <=? 13))
   || ((28 <=? code c) && (code c <=? 32)))%N.

Definition to_lower (c : ascii) : ascii :=
  if isupper c then ascii_of_N (code c + 32) else c.

Definition to_upper (c : ascii) : ascii :=
  if islower c then ascii_of_N (code c - 32) else c.

(** [s.lower()] on ASCII text, and the [LOWER] of SQLite on every text *)
Fixpoint lower (s : string) : string :=
  match s with
  | "" => ""
  | String c r => String (to_lower c) (lower r)
  end.

(** [s.capitalize()] on ASCII text: first character upper case, the
    rest lower case *)
Definition capitalize (s : string) : string :=
  match s with
  | "" => ""
  | String c r => String (to_upper c) (lower r)
  end.

(** [s.title()] on ASCII text: a cased character is upper case when
    the character before it is uncased (or there is none), lower case
    otherwise *)
Fixpoint title_go (prev_cased : bool) (s : string) : string :=
  match s with
  | "" => ""
  | String c r =>
      String (if prev_cased then to_lower c else to_upper c)
             (title_go (iscased c) r)
  end.

Definition title (s : string) : string := title_go false s.

(** [needle in hay] *)
Fixpoint startswith (hay needle : string) : bool :=
  match needle, hay with
  | "", _ => true
  | String a n, String b h => if decide (a = b) then startswith h n else false
  | String _ _, "" => false
  end.

Fixpoint contains (needle hay : string) : bool :=
  startswith hay needle
  || match hay with
     | "" => false
     | String _ r => contains needle r
     end.

(** [s.strip()] *)
Fixpoint lstrip (s : string) : string :=
  match s with
  | "" => ""
  | String c r => if isspace c then lstrip r else s
  end.

Fixpoint rstrip (s : string) : string :=
  match s with
  | "" => ""
  | String c r =>
      match rstrip r with
      | "" => if isspace c then "" else String c ""
      | r' => String c r'
      end
  end.

Definition strip (s : string) : string := rstrip (lstrip s).

(** [s.isascii()] *)
Fixpoint isascii (s : string) : bool :=
  match s with
  | "" => true
  | String c r => (code c <? 128)%N && isascii r
  end.

(** Truth value of a string: non-empty *)
Definition truthy (s : string) : bool :=
  match s with "" => false | _ => true end.

(** [push c l] puts [c] in front of the first string of [l]. *)
Definition push (c : ascii) (l : list string) : list string :=
  match l with
  | [] => [String c ""]
  | p :: ps => String c p :: ps
  end.

(** [s.split()]: the maximal runs of characters that are not white
    space, in order.  A character that is not white space is a word of
    its own when the text ends or white space follows, and extends the
    word that starts right after it otherwise. *)
Fixpoint split (s : string) : list string :=
  match s with
  | "" => []
  | String c r =>
      if isspace c then split r
      else match r with
           | "" => [String c ""]
           | String d _ =>
               if isspace d then String c "" :: split r
               else push c (split r)
           end
  end.

(** A word: not empty and free of white space. *)
Fixpoint nospace (s : string) : bool :=
  match s with
  | "" => true
  | String c r => negb (isspace c) && nospace r
  end.

Definition wordlike (w : string) : bool := truthy w && nospace w.

(** [sep.join(l)] *)
Fixpoint join (sep : string) (l : list string) : string :=
  match l with
  | [] => ""
  | [w] => w
  | w :: ws => w +:+ sep +:+ join sep ws
  end.

(** [''.join(l)] *)
Definition concat (l : list string) : string := foldr String.app "" l.

(** [l[i:j]] for [i <= j] *)
Definition slice {A} (l : list A) (i j : nat) : list A :=
  take (j - i) (drop i l).

(** [l.index(x)]: [None] is [ValueError] *)
Fixpoint index (x : string) (l : list string) : option nat :=
  match l with
  | [] => None
  | y :: l' => if decide (y = x) then Some 0 else S <$> index x l'
  end.

(** [x in l] *)
Definition mem (x : string) (l : list string) : bool :=
  bool_decide (x ∈ l).

(** [re.split(r'([.!?]\s+)', s)]: the text between the matches and,
    because of the capturing group, the matches themselves.  A match
    starts at every [.], [!] or [?] that white space follows and takes
    all of that white space.  The head of the result is the piece under
    construction. *)
Definition ispunct (c : ascii) : bool :=
  bool_decide (c = "."%char ∨ c = "!"%char ∨ c = "?"%char).

Definition starts_space (s : string) : bool :=
  match s with
  | "" => false
  | String d _ => isspace d
  end.

Fixpoint re_split_go (in_delim : bool) (s : string) : list string :=
  match s with
  | "" => if in_delim then [""; ""] else [""]
  | String c r =>
      let sentence :=
        if ispunct c && starts_space r
        then "" :: push c (re_split_go true r)
        else push c (re_split_go false r) in
      if in_delim
      then if isspace c then push c (re_split_go true r) else "" :: sentence
      else sentence
  end.

Definition re_split (s : string) : list string := re_split_go false s.

End Py.


(** ** Name Store: [GeoCapitalizer] *)

Module GeoCapitalizer.

(** One row of the [geonames] table, with the columns the queries read.
    [name] is [NOT NULL]; the other text columns may be [NULL]. *)
Record GeoRecord := {
  geonameid : N;
  name : string;
  asciiname : option string;
  feature_class : option string;
  feature_code : option string;
  country_code : option string;
  population : N
}.

(** [WHERE name = ? OR asciiname = ?] *)
Definition matches_exact (q : string) (r : GeoRecord) : bool :=
  bool_decide (name r = q) || bool_decide (asciiname r = Some q).

(** [WHERE LOWER(name) = LOWER(?) OR LOWER(asciiname) = LOWER(?)] *)
Definition matches_nocase (q : string) (r : GeoRecord) : bool :=
  bool_decide (Py.lower (name r) = Py.lower q)
  || bool_decide (Py.lower <$> asciiname r = Some (Py.lower q)).

(** [ORDER BY population DESC LIMIT 1]; among rows of equal population
    the first of the table is taken, where SQLite leaves the choice
    open. *)
Fixpoint fetchone (rows : list GeoRecord) : option GeoRecord :=
  match rows with
  | [] => None
  | r :: rows' =>
      match fetchone rows' with
      | Some r' => if (population r <? population r')%N then Some r' else Some r
      | None => Some r
      end
  end.

(** [lookup_name]: the exact query first, the case-insensitive one when
    it finds nothing. *)
Definition lookup_name (db : list GeoRecord) (q : string) : option GeoRecord :=
  match fetchone (filter (λ r, Is_true (matches_exact q r)) db) with
  | Some r => Some r
  | None => fetchone (filter (λ r, Is_true (matches_nocase q r)) db)
  end.

Section Checker.

(** The answer of the Name Store to [lookup_name]; every database
    [db] gives one, [lookup_name db].  A query that raises has no
    counterpart. *)
Variable lookup : string → option GeoRecord.

Definition is_proper_name (q : string) : bool :=
  bool_decide (lookup q ≠ None).

Definition get_correct_capitalization (q : string) : option string :=
  match lookup q with
  | Some info => Some (name info)
  | None => None
  end.

(** [check_capitalization]: [None] is the pair [(None, None)] of the
    source, "not a known geographic name". *)
Definition check_capitalization (text : string) : option (bool * string) :=
  match get_correct_capitalization text with
  | None => None
  | Some correct_form => Some (bool_decide (text = correct_form), correct_form)
  end.

End Checker.

End GeoCapitalizer.

(** ** Word Resolver, Phrase Scanner, Text Rewriter, Report Builder:
    [IntegratedCapitalizer] *)

Module IntegratedCapitalizer.

Import GeoCapitalizer.

(** [self.rules] and [self.lowercase_terms] *)
Definition days : list string :=
  ["monday"; "tuesday"; "wednesday"; "thursday"; "friday"; "saturday";
   "sunday"].
Definition months : list string :=
  ["january"; "february"; "march"; "april"; "may"; "june"; "july";
   "august"; "september"; "october"; "november"; "december"].
Definition holidays : list string :=
  ["christmas"; "easter"; "thanksgiving"; "halloween"; "valentine";
   "independence day"; "new year"].
Definition languages : list string :=
  ["english"; "spanish"; "french"; "german"; "italian"; "chinese";
   "japanese"; "russian"; "arabic"].
Definition military_ranks : list string :=
  ["captain"; "colonel"; "general"; "lieutenant"; "sergeant"; "major";
   "admiral"; "commander"].
Definition titles : list string :=
  ["president"; "senator"; "governor"; "mayor"; "doctor"; "professor";
   "judge"; "reverend"].
Definition religions : list string :=
  ["christianity"; "islam"; "judaism"; "buddhism"; "hinduism"].
Definition deities : list string :=
  ["god"; "allah"; "buddha"; "jesus"; "christ"].
Definition seasons : list string :=
  ["spring"; "summer"; "fall"; "autumn"; "winter"].
Definition directions : list string :=
  ["north"; "south"; "east"; "west"; "northern"; "southern"; "eastern";
   "western"].

(** The triple [(needs_correction, correct_form, reason)]. *)
Definition Decision : Type := bool * string * string.

(** What one rule of [check_word] does: [return] a decision, fall
    through to the next rule, or raise. *)
Inductive flow :=
  | Return (d : Decision)
  | Fallthrough
  | Raise.

Definition and_then (r : flow) (next : flow) : flow :=
  match r with
  | Fallthrough => next
  | _ => r
  end.

Infix ";>" := and_then (at level 65, right associativity).

(** A rule with a membership test and a transform:
    [if word_lower in terms: correct = f(word_lower);
     if word != correct: return (True, correct, reason)] *)
Definition rule_terms (terms : list string) (f : string → string)
    (reason : string) (word : string) : flow :=
  let word_lower := Py.lower word in
  if Py.mem word_lower terms then
    let correct := f word_lower in
    if bool_decide (word ≠ correct) then Return (true, correct, reason)
    else Fallthrough
  else Fallthrough.

(** Priority 4: the loop over the holiday terms *)
Fixpoint rule_holiday (hs : list string) (word context : string) : flow :=
  match hs with
  | [] => Fallthrough
  | holiday :: hs' =>
      let word_lower := Py.lower word in
      if bool_decide (word_lower = holiday)
         || Py.contains holiday (Py.lower context)
      then
        let correct := Py.title word_lower in
        if bool_decide (word ≠ correct) then Return (true, correct, "Holiday")
        else rule_holiday hs' word context
      else rule_holiday hs' word context
  end.

(** Priority 6: ranks and titles before a capitalized word.  The
    [ValueError] of [index] is caught and falls through; [next_word[0]]
    raises [IndexError] on an empty string. *)
Definition rule_rank_title (word context : string) : flow :=
  let word_lower := Py.lower word in
  if Py.mem word_lower military_ranks || Py.mem word_lower titles then
    let context_words := Py.split context in
    match Py.index word context_words with
    | None => Fallthrough
    | Some word_index =>
        if word_index + 1 <? length context_words then
          match context_words !! (word_index + 1) with
          | None => Raise
          | Some next_word =>
              match next_word with
              | "" => Raise
              | String ch _ =>
                  if Py.isupper ch then
                    let correct := Py.capitalize word_lower in
                    if bool_decide (word ≠ correct) then
                      let category :=
                        if Py.mem word_lower military_ranks
                        then "Military rank" else "Title" in
                      Return (true, correct, category +:+ " before name")
                    else Fallthrough
                  else Fallthrough
              end
          end
        else Fallthrough
    end
  else Fallthrough.

(** Priority 8: deities, with the inner list of the source *)
Definition rule_deity (word : string) : flow :=
  let word_lower := Py.lower word in
  if Py.mem word_lower deities then
    rule_terms ["god"; "allah"; "jesus"; "christ"; "buddha"]
               Py.capitalize "Deity" word
  else Fallthrough.

(** The directions are reserved: the rule is [pass]. *)
Definition rule_direction (word : string) : flow :=
  if Py.mem (Py.lower word) directions then Fallthrough else Fallthrough.

(** A correction: the dictionary with the keys [position], [original],
    [correct] and [reason]. *)
Record Correction := {
  position : nat;
  original : string;
  correct : string;
  reason : string
}.

Global Instance Correction_eq_dec : EqDecision Correction.
Proof. solve_decision. Defined.

(** Positions in increasing order, as the scanner emits them, and in
    decreasing order, as the rewriter visits them. *)
Definition ascending (c d : Correction) : Prop := position c < position d.
Definition descending (c d : Correction) : Prop := position d < position c.

(** [sorted(corrections, key=lambda x: x['position'], reverse=True)]: a
    stable sort, so corrections of equal position keep their order. *)
Fixpoint insert_desc (c : Correction) (l : list Correction) : list Correction :=
  match l with
  | [] => [c]
  | d :: l' =>
      if position d <=? position c then c :: l else d :: insert_desc c l'
  end.

Definition sorted_desc (l : list Correction) : list Correction :=
  foldr insert_desc [] l.

(** [stats[reason] = stats.get(reason, 0) + 1] for every change *)
Definition count_reasons (changes : list Correction) : gmap string nat :=
  foldl (λ stats change,
           <[reason change := default 0 (stats !! reason change) + 1]> stats)
        ∅ changes.

(** The report of [analyze_text] *)
Record AnalysisResult := {
  original_text : string;
  corrected_text : string;
  changes : list Correction;
  stats : gmap string nat;
  total_corrections : nat
}.

Section Capitalizer.

Variable lookup : string → option GeoRecord.

(** Priority 1: a word the Name Store knows is settled here. *)
Definition rule_geo (word : string) : flow :=
  match check_capitalization lookup word with
  | Some (is_correct, correct_form) =>
      if negb is_correct then Return (true, correct_form, "Geographic name")
      else Return (false, word, "Correct")
  | None => Fallthrough
  end.

Definition check_word_flow (word context : string) : flow :=
  rule_geo word ;>
  rule_terms days Py.capitalize "Day of week" word ;>
  rule_terms months Py.capitalize "Month" word ;>
  rule_holiday holidays word context ;>
  rule_terms languages Py.capitalize "Language" word ;>
  rule_rank_title word context ;>
  rule_terms religions Py.capitalize "Religion" word ;>
  rule_deity word ;>
  rule_terms seasons (λ s, s) "Season (lowercase)" word ;>
  rule_direction word ;>
  Return (false, word, "Correct").

Definition check_word (word context : string) : option Decision :=
  match check_word_flow word context with
  | Return d => Some d
  | Fallthrough => Some (false, word, "Correct")
  | Raise => None
  end.

(** Priority 1 for a span of two or three words in [check_phrase]: only a
    known name whose text differs from the canonical form is corrected. *)
Definition span_correction (i : nat) (span reason : string)
    : option Correction :=
  match check_capitalization lookup span with
  | Some (is_correct, correct_form) =>
      if negb is_correct
      then Some {| position := i; original := span;
                   correct := correct_form; reason := reason |}
      else None
  | None => None
  end.

Definition try_three (words : list string) (i : nat) : option Correction :=
  if i + 2 <? length words then
    span_correction i (Py.join " " (Py.slice words i (i + 3)))
                    "Geographic name (3 words)"
  else None.

Definition try_two (words : list string) (i : nat) : option Correction :=
  if i + 1 <? length words then
    span_correction i (Py.join " " (Py.slice words i (i + 2)))
                    "Geographic name (2 words)"
  else None.

(** [words[i]] with its [IndexError] *)
Definition try_word (phrase : string) (words : list string) (i : nat)
    : option (list Correction) :=
  word ← words !! i;
  '(needs_correction, correct_form, reason) ← check_word word phrase;
  Some (if needs_correction : bool
        then [{| position := i; original := word;
                 correct := correct_form; reason := reason |}]
        else []).

(** The body of the loop of [check_phrase] at index [i]: what it
    appends to [corrections]. *)
Definition check_index (phrase : string) (words : list string) (i : nat)
    : option (list Correction) :=
  match try_three words i with
  | Some c => Some [c]
  | None =>
      match try_two words i with
      | Some c => Some [c]
      | None => try_word phrase words i
      end
  end.

(** [for i in range(len(words))], over the indices still to visit *)
Fixpoint check_indices (phrase : string) (words : list string)
    (indices : list nat) : option (list Correction) :=
  match indices with
  | [] => Some []
  | i :: indices' =>
      found ← check_index phrase words i;
      later ← check_indices phrase words indices';
      Some (found ++ later)
  end.

Definition check_phrase (phrase : string) : option (list Correction) :=
  let words := Py.split phrase in
  check_indices phrase words (seq 0 (length words)).

(** One turn of the rewriting loop of [correct_text]:
    [words = corrected.split(); words[position] = correct;
     corrected = ' '.join(words)] *)
Definition apply_correction (corrected : string) (c : Correction)
    : option string :=
  let words := Py.split corrected in
  if position c <? length words
  then Some (Py.join " " (<[position c := correct c]> words))
  else None.

Fixpoint apply_corrections (corrected : string) (cs : list Correction)
    : option string :=
  match cs with
  | [] => Some corrected
  | c :: cs' =>
      corrected' ← apply_correction corrected c;
      apply_corrections corrected' cs'
  end.

(** The Text Rewriter: the corrections of one sentence, applied from
    the highest position down. *)
Definition rewrite_sentence (sentence : string) (corrections : list Correction)
    : option string :=
  apply_corrections sentence (sorted_desc corrections).

(** The loop of [correct_text] over the pieces of [re.split]: the
    rewritten pieces and the corrections in the order they are applied. *)
Fixpoint correct_sentences (sentences : list string)
    : option (list string * list Correction) :=
  match sentences with
  | [] => Some ([], [])
  | sentence :: sentences' =>
      if negb (Py.truthy (Py.strip sentence)) then
        '(rest, changes) ← correct_sentences sentences';
        Some (sentence :: rest, changes)
      else
        corrections ← check_phrase sentence;
        corrected ← rewrite_sentence sentence corrections;
        '(rest, changes) ← correct_sentences sentences';
        Some (corrected :: rest, sorted_desc corrections ++ changes)
  end.

Definition correct_text (text : string) : option (string * list Correction) :=
  '(corrected_sentences, changes) ← correct_sentences (Py.re_split text);
  Some (Py.concat corrected_sentences, changes).

Definition analyze_text (text : string) : option AnalysisResult :=
  '(corrected, changes) ← correct_text text;
  Some {| original_text := text;
          corrected_text := corrected;
          changes := changes;
          stats := count_reasons changes;
          total_corrections := length changes |}.

End Capitalizer.

End IntegratedCapitalizer.

(** ** Notions used to state the properties *)

Module Props.

Import GeoCapitalizer IntegratedCapitalizer.

(** No holiday term occurs in the lower-case context. *)
Definition holiday_free (context : string) : bool :=
  forallb (λ h, negb (Py.contains h (Py.lower context))) holidays.

(** The rules of [check_word] that do not read the context, with the
    holiday loop run on an empty context. *)
Definition lexical_flow (word : string) : flow :=
  rule_terms days Py.capitalize "Day of week" word ;>
  rule_terms months Py.capitalize "Month" word ;>
  rule_holiday holidays word "" ;>
  rule_terms languages Py.capitalize "Language" word ;>
  rule_terms religions Py.capitalize "Religion" word ;>
  rule_deity word ;>
  rule_terms seasons (λ s, s) "Season (lowercase)" word.

(** The rank and title rule cannot change the word: it is not a rank
    or title, or it is capitalized already. *)
Definition rank_inert (word : string) : bool :=
  bool_decide (word = Py.capitalize (Py.lower word))
  || negb (Py.mem (Py.lower word) military_ranks
           || Py.mem (Py.lower word) titles).

(** A word no lexical rule changes in a context without holiday terms. *)
Definition settled (word : string) : bool :=
  rank_inert word
  && match lexical_flow word with Fallthrough => true | _ => false end.

(** Every form a lexical rule can propose when the context has no
    holiday term. *)
Definition proposals : list string :=
  (Py.capitalize <$> days ++ months ++ languages ++ military_ranks
                     ++ titles ++ religions
                     ++ ["god"; "allah"; "jesus"; "christ"; "buddha"])
  ++ (Py.title <$> holidays) ++ seasons.

(** The token range a correction covers: from its position through
    its position plus the number of tokens of its original span minus
    one. *)
Definition last_token (c : Correction) : nat :=
  position c + length (Py.split (original c)) - 1.

(** Two corrections whose token ranges intersect. *)
Definition overlap (c d : Correction) : bool :=
  (position c <=? last_token d) && (position d <=? last_token c).

(** A text without a sentence boundary: no [.], [!] or [?] that white
    space follows. *)
Fixpoint calm (s : string) : bool :=
  match s with
  | "" => true
  | String c r => negb (Py.ispunct c && Py.starts_space r) && calm r
  end.

(** White space only. *)
Fixpoint allspace (s : string) : bool :=
  match s with
  | "" => true
  | String c r => Py.isspace c && allspace r
  end.






(** Two strings that differ in letter case only. *)
Definition same_letters (a b : string) : Prop := Py.lower a = Py.lower b.

(** [words[position] = correct] on the token list. *)
Definition substitute (ws : list string) (c : Correction) : list string :=
  <[position c := correct c]> ws.

(** A correction the scanner emits for the single token at its
    position. *)
Definition emitted (lookup : string → option GeoRecord)
    (phrase : string) (words : list string) (c : Correction) : Prop :=
  ∃ w, words !! position c = Some w
       ∧ check_word lookup w phrase = Some (true, correct c, reason c).


(** Every token of every piece of the text is left alone by the rank
    and title rule. *)
Definition ranks_inert (text : string) : bool :=
  forallb (λ p, forallb rank_inert (Py.split p)) (Py.re_split text).

End Props.

(** ** Databases for the examples *)

Module Stores.

Import GeoCapitalizer.

Definition place (id : N) (n : string) (pop : N) : GeoRecord :=
  {| geonameid := id; name := n; asciiname := Some n;
     feature_class := Some "P"; feature_code := Some "PPL";
     country_code := None; population := pop |}.

Definition nowhere : list GeoRecord := [].

Definition new_york : list GeoRecord := [place 5128581 "New York" 8804190].

Definition york : list GeoRecord :=
  [place 5128581 "New York" 8804190; place 2633352 "York" 153717].

Definition bay : list GeoRecord :=
  [place 5391959 "San Francisco" 873965;
   place 5391961 "San Francisco Bay" 0;
   place 3110044 "San" 1200].

Definition march : list GeoRecord := [place 2643030 "March" 22298].

Definition spring : list GeoRecord := [place 4733042 "Spring" 62559].

Definition spring_hill : list GeoRecord := [place 4173600 "Spring Hill" 98621].

End Stores.

(** ** Phrase rules of the Name Store client *)

Module GeoPhrases.

Import GeoCapitalizer.

(** [self.generic_terms] and [self.directions] of [GeoCapitalizer] *)
Definition generic_terms : list string :=
  ["river"; "lake"; "ocean"; "sea"; "bay"; "gulf";
   "mountain"; "mount"; "hill"; "valley"; "peak";
   "street"; "road"; "avenue"; "boulevard"; "drive";
   "city"; "town"; "village";
   "island"; "peninsula";
   "desert"; "forest"; "park"].

Definition directions : list string :=
  ["north"; "south"; "east"; "west";
   "northern"; "southern"; "eastern"; "western";
   "northeast"; "northwest"; "southeast"; "southwest";
   "northeastern"; "northwestern"; "southeastern"; "southwestern";
   "central"; "upper"; "lower"; "middle"].

Section Rules.

Variable lookup : string → option GeoRecord.

(** The loop of [apply_capitalization_rules] from index [i] on: [rest]
    holds the words still to visit, [result] the words appended so far.
    A direction word that opens a known place name returns that name
    at once. *)
Fixpoint rules_loop (words : list string) (i : nat) (rest result : list string)
    : string :=
  match rest with
  | [] => Py.join " " result
  | word :: rest' =>
      let word_lower := Py.lower word in
      if Py.mem word_lower directions then
        if i <? length words - 1 then
          let test_phrase := Py.join " " (drop i words) in
          if is_proper_name lookup test_phrase then
            match get_correct_capitalization lookup test_phrase with
            | Some correct =>
                if Py.truthy correct then correct
                else rules_loop words (S i) rest' (result ++ [word_lower])
            | None => rules_loop words (S i) rest' (result ++ [word_lower])
            end
          else rules_loop words (S i) rest' (result ++ [word_lower])
        else rules_loop words (S i) rest' (result ++ [word_lower])
      else if Py.mem word_lower generic_terms then
        if 0 <? i
        then rules_loop words (S i) rest' (result ++ [Py.capitalize word])
        else rules_loop words (S i) rest' (result ++ [word_lower])
      else
        match get_correct_capitalization lookup word with
        | Some correct =>
            if Py.truthy correct
            then rules_loop words (S i) rest' (result ++ [correct])
            else rules_loop words (S i) rest' (result ++ [Py.capitalize word])
        | None => rules_loop words (S i) rest' (result ++ [Py.capitalize word])
        end
  end.

Definition apply_capitalization_rules (phrase : string) : string :=
  let words := Py.split phrase in
  rules_loop words 0 words [].

End Rules.

(** What [apply_capitalization_rules] appends for the word at index [i]
    when the Name Store knows nothing. *)
Definition plain_form (i : nat) (word : string) : string :=
  if Py.mem (Py.lower word) directions then Py.lower word
  else if Py.mem (Py.lower word) generic_terms then
    if 0 <? i then Py.capitalize word else Py.lower word
  else Py.capitalize word.

Fixpoint plain_forms (i : nat) (rest : list string) : list string :=
  match rest with
  | [] => []
  | word :: rest' => plain_form i word :: plain_forms (S i) rest'
  end.

End GeoPhrases.

(** ** The rate limiter of the web application *)

Module App.

(** [RATE_LIMIT]: requests per minute per IP *)
Definition RATE_LIMIT : nat := 100.

(** What the decorated function returns: the result of the wrapped
    function, or the 429 response. *)
Inductive limited (R : Type) :=
  | Passed (r : R)
  | TooMany.
Arguments Passed {R} r.
Arguments TooMany {R}.

Section RateLimit.

(** Time stamps are the floats of [time.time()]; the test
    [current_time - t < 60] on them is kept abstract. *)
Variable T : Type.
Variable within_minute : T → T → bool.

(** [rate_limit(f)] as a function of the dictionary [request_counts]:
    the response and the dictionary after the call. *)
Definition rate_limit {A R : Type} (f : A → R) (ip : string) (current_time : T)
    (args : A) (request_counts : gmap string (list T))
    : limited R * gmap string (list T) :=
  let counts :=
    if decide (request_counts !! ip = None)
    then <[ip := []]> request_counts else request_counts in
  let kept :=
    filter (λ t, Is_true (within_minute current_time t))
           (default [] (counts !! ip)) in
  let counts := <[ip := kept]> counts in
  if RATE_LIMIT <=? length kept then (TooMany, counts)
  else (Passed (f args), <[ip := kept ++ [current_time]]> counts).

(** A run of requests [(ip, time, args)], one after the other through
    the decorator: the dictionary it leaves. *)
Fixpoint serve {A R : Type} (f : A → R) (requests : list (string * T * A))
    (request_counts : gmap string (list T)) : gmap string (list T) :=
  match requests with
  | [] => request_counts
  | (ip, current_time, args) :: requests' =>
      serve f requests' (rate_limit f ip current_time args request_counts).2
  end.

(** No address has more than [RATE_LIMIT] time stamps on record. *)
Definition bounded (request_counts : gmap string (list T)) : Prop :=
  map_Forall (λ _ stamps, length stamps ≤ RATE_LIMIT) request_counts.

End RateLimit.

End App.

(** ** The handlers of the web application *)

Module Api.

Import GeoCapitalizer IntegratedCapitalizer.

(** The value of a member of a JSON object: a string, or any other
    value (one without [strip]). *)
Inductive jvalue :=
  | VString (s : string)
  | VOther.

(** The value [request.get_json()] returns.  Of a number and of an
    array only the truth value is read. *)
Inductive json :=
  | JNull
  | JBool (b : bool)
  | JNumber (nonzero : bool)
  | JString (s : string)
  | JArray (nonempty : bool)
  | JObject (members : list (string * jvalue)).

(** [not data] is the negation of this. *)
Definition json_truthy (data : json) : bool :=
  match data with
  | JNull => false
  | JBool b => b
  | JNumber nonzero => nonzero
  | JString s => Py.truthy s
  | JArray nonempty => nonempty
  | JObject members => match members with [] => false | _ => true end
  end.

(** The dictionary of a JSON object: of two members with one key the
    later one counts. *)
Fixpoint member (key : string) (members : list (string * jvalue))
    : option jvalue :=
  match members with
  | [] => None
  | (k, v) :: members' =>
      match member key members' with
      | Some v' => Some v'
      | None => if decide (k = key) then Some v else None
      end
  end.

(** [data.get(key, '').strip()]: [None] is the [AttributeError] of a
    value without [get] or without [strip]. *)
Definition get_stripped (data : json) (key : string) : option string :=
  match data with
  | JObject members =>
      match default (VString "") (member key members) with
      | VString s => Some (Py.strip s)
      | VOther => None
      end
  | _ => None
  end.

(** The member is absent or a string. *)
Definition textual (key : string) (members : list (string * jvalue)) : bool :=
  match member key members with
  | Some VOther => false
  | _ => true
  end.

(** What a handler returns: the body of a 200 response, or an error
    with its status. *)
Inductive reply (B : Type) :=
  | Ok (body : B)
  | Failure (status : nat) (error : string).
Arguments Ok {B} body.
Arguments Failure {B} status error.

(** The body of [/api/check-word] *)
Record WordReport := {
  word : string;
  needs_correction : bool;
  correct_form : string;
  reason : string
}.

Section Handlers.

(** [get_checker()]: [None] is the [FileNotFoundError] of a missing
    database file. *)
Variable checker : option (string → option GeoRecord).

(** Whether the database answers the queries of the request.  Both
    handlers query it for every body that passes their tests, and a
    query that raises (a string that SQLite cannot encode, a database
    without the table) is caught with the other exceptions. *)
Variable answers : bool.

(** [check_text] of [/api/check], from the parsed body on.  Every
    exception other than [FileNotFoundError] gives 500. *)
Definition check_text (data : json) : reply AnalysisResult :=
  if negb (json_truthy data) then Failure 400 "No JSON data provided"
  else
    match get_stripped data "text" with
    | None => Failure 500 "Internal server error"
    | Some text =>
        if negb (Py.truthy text) then Failure 400 "No text provided"
        else if 10000 <? String.length text
        then Failure 400 "Text too long. Maximum 10,000 characters."
        else
          match checker with
          | None => Failure 503 "Database not available"
          | Some lookup =>
              if negb answers then Failure 500 "Internal server error"
              else
                match analyze_text lookup text with
                | Some result => Ok result
                | None => Failure 500 "Internal server error"
                end
          end
    end.

(** [check_word] of [/api/check-word] *)
Definition check_word (data : json) : reply WordReport :=
  if negb (json_truthy data) then Failure 400 "No JSON data provided"
  else
    match get_stripped data "word" with
    | None => Failure 500 "Internal server error"
    | Some w =>
        match get_stripped data "context" with
        | None => Failure 500 "Internal server error"
        | Some context =>
            if negb (Py.truthy w) then Failure 400 "No word provided"
            else if 100 <? String.length w then Failure 400 "Word too long"
            else
              match checker with
              | None => Failure 503 "Database not available"
              | Some lookup =>
                  if negb answers then Failure 500 "Internal server error"
                  else
                    match IntegratedCapitalizer.check_word lookup w context with
                    | Some (needs, form, why) =>
                        Ok {| word := w; needs_correction := needs;
                              correct_form := form; reason := why |}
                    | None => Failure 500 "Internal server error"
                    end
              end
        end
    end.

End Handlers.

End Api.

(** ** The importer of the Name Store *)

Module Downloader.

(** [s.split(sep)] for a one-character separator: the fields between
    the separators, empty ones included. *)
Fixpoint split_on (sep : ascii) (s : string) : list string :=
  match s with
  | "" => [""]
  | String c r =>
      if decide (c = sep) then "" :: split_on sep r
      else Py.push c (split_on sep r)
  end.

Definition tab : ascii := "009"%char.

(** [parts = line.strip().split('\t')] *)
Definition fields (line : string) : list string :=
  split_on tab (Py.strip line).

(** One line of the feature code file: the row it inserts, or [None]
    when the line has fewer than two fields. *)
Definition feature_code_row (line : string) : option (string * (string * string)) :=
  let parts := fields line in
  if 2 <=? length parts then
    code ← parts !! 0;
    name ← parts !! 1;
    let description :=
      if 2 <? length parts then default "" (parts !! 2) else "" in
    Some (code, (name, description))
  else None.

(** [import_feature_codes]: [INSERT OR REPLACE] for every line, on the
    table [feature_codes] keyed by [code]. *)
Definition import_feature_codes (lines : list string)
    (feature_codes : gmap string (string * string))
    : gmap string (string * string) :=
  foldl (λ table line,
           match feature_code_row line with
           | Some (code, row) => <[code := row]> table
           | None => table
           end)
        feature_codes lines.

(** A row of the table [geonames], in the order of the [INSERT]. *)
Record GeoRow (F : Type) := {
  row_geonameid : Z;
  row_name : string;
  row_asciiname : string;
  row_alternatenames : string;
  row_latitude : option F;
  row_longitude : option F;
  row_feature_class : string;
  row_feature_code : string;
  row_country_code : string;
  row_admin1_code : string;
  row_admin2_code : string;
  row_population : Z;
  row_elevation : option Z;
  row_timezone : string
}.
Arguments row_geonameid {F} _.
Arguments row_name {F} _.
Arguments row_population {F} _.
Arguments row_elevation {F} _.

Section Importer.

(** [int(s)] and [float(s)] of Python, [None] for [ValueError]; [F] is
    the type of the values a [REAL] column holds. *)
Variable F : Type.
Variable py_int : string → option Z.
Variable py_float : string → option F.

(** [parts[i]] of a list of at least 19 fields *)
Definition part (parts : list string) (i : nat) : string :=
  default "" (parts !! i).

(** The tuple [record] of one line: [None] when the line has fewer
    than 19 fields or a number does not parse. *)
Definition geonames_record (line : string) : option (GeoRow F) :=
  let parts := fields line in
  if length parts <? 19 then None
  else
    geonameid ← py_int (part parts 0);
    latitude ← (if Py.truthy (part parts 4)
                then Some <$> py_float (part parts 4) else Some None);
    longitude ← (if Py.truthy (part parts 5)
                 then Some <$> py_float (part parts 5) else Some None);
    population ← (if Py.truthy (part parts 14)
                  then py_int (part parts 14) else Some 0%Z);
    elevation ← (if Py.truthy (part parts 15)
                 then Some <$> py_int (part parts 15) else Some None);
    Some {| row_geonameid := geonameid;
            row_name := part parts 1;
            row_asciiname := part parts 2;
            row_alternatenames := part parts 3;
            row_latitude := latitude;
            row_longitude := longitude;
            row_feature_class := part parts 6;
            row_feature_code := part parts 7;
            row_country_code := part parts 8;
            row_admin1_code := part parts 10;
            row_admin2_code := part parts 11;
            row_population := population;
            row_elevation := elevation;
            row_timezone := part parts 17 |}.

(** The records of the lines that give one, in the order of the file *)
Definition records (lines : list string) : list (GeoRow F) :=
  omap geonames_record lines.

(** The integers an [INTEGER] column takes: 64 bits, signed. *)
Definition int64 (z : Z) : bool := ((- 2 ^ 63 <=? z) && (z <? 2 ^ 63))%Z.

Definition storable (record : GeoRow F) : bool :=
  int64 (row_geonameid record) && int64 (row_population record)
  && from_option int64 true (row_elevation record).

(** [executemany("INSERT OR REPLACE ...", batch)] on the table keyed by
    [geonameid]; [None] is the [OverflowError] of an integer beyond 64
    bits, which [import_geonames_file] does not catch.  The table that
    a failed run leaves behind, with the batches committed before the
    error, is not modelled. *)
Definition executemany (batch : list (GeoRow F)) (geonames : gmap Z (GeoRow F))
    : option (gmap Z (GeoRow F)) :=
  if forallb storable batch
  then Some (foldl (λ table record, <[row_geonameid record := record]> table)
                   geonames batch)
  else None.

(** The loop of [import_geonames_file] over the lines: the table, the
    pending batch and the count. *)
Fixpoint import_lines (batch_size : nat) (lines : list string)
    (geonames : gmap Z (GeoRow F)) (batch : list (GeoRow F)) (count : nat)
    : option (gmap Z (GeoRow F) * list (GeoRow F) * nat) :=
  match lines with
  | [] => Some (geonames, batch, count)
  | line :: lines' =>
      match geonames_record line with
      | None => import_lines batch_size lines' geonames batch count
      | Some record =>
          let batch := batch ++ [record] in
          let count := count + 1 in
          if batch_size <=? length batch
          then
            geonames ← executemany batch geonames;
            import_lines batch_size lines' geonames [] count
          else import_lines batch_size lines' geonames batch count
      end
  end.

(** [import_geonames_file]: the table after the import and the count
    it prints. *)
Definition import_geonames_file (batch_size : nat) (lines : list string)
    (geonames : gmap Z (GeoRow F)) : option (gmap Z (GeoRow F) * nat) :=
  '(geonames, batch, count) ← import_lines batch_size lines geonames [] 0;
  geonames ← match batch with
             | [] => Some geonames
             | _ => executemany batch geonames
             end;
  Some (geonames, count).

End Importer.

End Downloader.

(** ** Notions used to state idempotence *)

Module Passes.

Import GeoCapitalizer IntegratedCapitalizer Props.

(** The first character is an upper-case letter: [w[0].isupper()]. *)
Definition starts_upper (w : string) : bool :=
  match w with
  | "" => false
  | String ch _ => Py.isupper ch
  end.

(** The rank and title rule leaves the token [w] of the sentence [q]
    alone: [w] is no rank or title or is capitalized already, or the
    token after its first occurrence in [q] does not start with an
    upper-case letter, or there is no such token. *)
Definition rank_quiet (q w : string) : bool :=
  rank_inert w
  || match Py.index w (Py.split q) with
     | None => true
     | Some i =>
         match Py.split q !! (i + 1) with
         | None => true
         | Some next => negb (starts_upper next)
         end
     end.

Definition ranks_quiet (text : string) : bool :=
  forallb (λ q, forallb (rank_quiet q) (Py.split q)) (Py.re_split text).

Section Store.

Variable lookup : string → option GeoRecord.

(** The span is not a known name written otherwise than its canonical
    form. *)
Definition span_settled (span : string) : bool :=
  match check_capitalization lookup span with
  | Some (false, _) => false
  | _ => true
  end.

(** The spans of three and of two tokens that start at index [i] *)
Definition spans_settled_at (words : list string) (i : nat) : bool :=
  (negb (i + 2 <? length words)
   || span_settled (Py.join " " (Py.slice words i (i + 3))))
  && (negb (i + 1 <? length words)
      || span_settled (Py.join " " (Py.slice words i (i + 2)))).

(** No span of two or three adjacent tokens of a sentence of the text
    is a known name written otherwise than its canonical form. *)
Definition spans_settled (text : string) : bool :=
  forallb (λ q, forallb (spans_settled_at (Py.split q))
                        (seq 0 (length (Py.split q))))
          (Py.re_split text).

(** A change of one token, in letter case only, to a form that the
    Name Store has as a canonical form, or of a word the Name Store
    does not know to a form it does not know either. *)
Definition steady (c : Correction) : bool :=
  Py.wordlike (original c)
  && bool_decide (Py.lower (correct c) = Py.lower (original c))
  && (bool_decide (get_correct_capitalization lookup (correct c)
                   = Some (correct c))
      || (bool_decide (get_correct_capitalization lookup (original c) = None)
          && bool_decide (get_correct_capitalization lookup (correct c)
                          = None))).


End Store.

End Passes.

(** ** Notions used to state the properties of the report *)

Module Reports.

Import IntegratedCapitalizer.

(** The reasons a correction can carry *)
Definition reasons : list string :=
  ["Geographic name"; "Geographic name (2 words)"; "Geographic name (3 words)";
   "Day of week"; "Month"; "Holiday"; "Language";
   "Military rank before name"; "Title before name";
   "Religion"; "Deity"; "Season (lowercase)"].

(** A correction that changes its text and carries one of the reasons *)
Definition genuine (c : Correction) : Prop :=
  correct c ≠ original c ∧ reason c ∈ reasons.

End Reports.

(** ** Sample files and requests *)

Module Samples.

Import Downloader.

(** A line of a tab-separated file *)
Definition tsv (parts : list string) : string :=
  Py.join (String tab "") parts +:+ String "010"%char "".

(** Unsigned decimal numerals, as [int] reads them *)
Definition digit (c : ascii) : option Z :=
  if ((48 <=? Py.code c) && (Py.code c <=? 57))%N
  then Some (Z.of_N (Py.code c) - 48)%Z else None.

Fixpoint decimal_go (acc : Z) (s : string) : option Z :=
  match s with
  | "" => Some acc
  | String c r => d ← digit c; decimal_go (10 * acc + d)%Z r
  end.

Definition decimal (s : string) : option Z :=
  if Py.truthy s then decimal_go 0 s else None.

(** The line of York in the file of Great Britain, coordinates left
    out *)
Definition york_line : string :=
  tsv ["2633352"; "York"; "York"; ""; ""; ""; "P"; "PPLA2"; "GB"; "";
       "ENG"; "H3"; ""; ""; "153717"; ""; "17"; "Europe/London";
       "2022-03-09"].

Definition york_row : GeoRow unit :=
  {| row_geonameid := 2633352; row_name := "York"; row_asciiname := "York";
     row_alternatenames := ""; row_latitude := None; row_longitude := None;
     row_feature_class := "P"; row_feature_code := "PPLA2";
     row_country_code := "GB"; row_admin1_code := "ENG";
     row_admin2_code := "H3"; row_population := 153717;
     row_elevation := None; row_timezone := "Europe/London" |}.

(** A row whose ASCII name is not its name *)
Definition row (id : N) (n a : string) (pop : N) : GeoCapitalizer.GeoRecord :=
  {| GeoCapitalizer.geonameid := id; GeoCapitalizer.name := n;
     GeoCapitalizer.asciiname := Some a;
     GeoCapitalizer.feature_class := Some "P";
     GeoCapitalizer.feature_code := Some "PPL";
     GeoCapitalizer.country_code := None;
     GeoCapitalizer.population := pop |}.

(** A name of two words with another ASCII name, and two rows that
    hold each other's name. *)
Definition big_monday : list GeoCapitalizer.GeoRecord :=
  [row 1 "Big monday" "bigmon" 5].

Definition two_yorks : list GeoCapitalizer.GeoRecord :=
  [row 1 "York" "YORK" 10; row 2 "yORK" "York" 100].

(** A line whose identifier does not fit 64 bits *)
Definition big_line : string :=
  tsv ["9223372036854775808"; "Big"; "Big"; ""; ""; ""; "P"; "PPL"; "GB"; "";
       "ENG"; "H3"; ""; ""; "1"; ""; "17"; "Europe/London"; "2022-03-09"].

(** Seconds as natural numbers *)
Definition within_minute (current_time t : nat) : bool :=
  current_time - t <? 60.

End Samples.

(** * Properties *)

(** ** The string primitives *)

Section PyFacts.

Import Py.

Lemma app_cons c a b : String c a +:+ b = String c (a +:+ b).
Proof. reflexivity. Qed.

Lemma app_empty_l a : "" +:+ a = a.
Proof. reflexivity. Qed.

Lemma split_cons_space c r : isspace c = true → split (String c r) = split r.
Proof. intros H. simpl. by rewrite H. Qed.

Lemma split_cons_word c r :
  isspace c = false →
  split (String c r) =
    if starts_space r then String c "" :: split r else push c (split r).
Proof.
  intros H. simpl. rewrite H. destruct r as [|d r]; [done|].
  simpl starts_space. by destruct (isspace d).
Qed.

Lemma split_cons_word_nonempty c r : isspace c = false → split (String c r) ≠ [].
Proof.
  intros H. rewrite split_cons_word by done.
  destruct (starts_space r); [done|]. by destruct (split r).
Qed.

Lemma push_app c l k : l ≠ [] → push c (l ++ k) = push c l ++ k.
Proof. by destruct l. Qed.

(** White space between two texts separates their words. *)
Lemma split_app_space a c b :
  isspace c = true → split (a +:+ String c b) = split a ++ split b.
Proof.
  intros Hc. induction a as [|x a IH].
  - rewrite app_empty_l. by apply split_cons_space.
  - rewrite app_cons. destruct (isspace x) eqn:Hx.
    + by rewrite !split_cons_space.
    + rewrite !split_cons_word by done. rewrite IH.
      destruct a as [|d a].
      * simpl. by rewrite Hc.
      * rewrite app_cons. simpl starts_space.
        destruct (isspace d) eqn:Hd; [done|].
        apply push_app. by apply split_cons_word_nonempty.
Qed.

Lemma split_join l : split (join " " l) = l ≫= split.
Proof.
  induction l as [|w [|w' l] IH]; [done| |].
  - simpl. by rewrite app_nil_r.
  - change (join " " (w :: w' :: l)) with (w +:+ String " " (join " " (w' :: l))).
    rewrite split_app_space by done. by rewrite IH.
Qed.

Lemma wordlike_push c l :
  isspace c = false → Forall (λ w, wordlike w) l → Forall (λ w, wordlike w) (push c l).
Proof.
  intros Hc Hl. destruct Hl as [|w l' Hw Hl']; simpl.
  - constructor; [|done]. unfold wordlike. simpl. by rewrite Hc.
  - constructor; [|done]. unfold wordlike in *. simpl. rewrite Hc. simpl.
    by destruct w.
Qed.

Lemma split_wordlike s : Forall (λ w, wordlike w) (split s).
Proof.
  induction s as [|c r IH]; [constructor|].
  destruct (isspace c) eqn:Hc.
  - by rewrite split_cons_space.
  - rewrite split_cons_word by done. destruct (starts_space r).
    + constructor; [|done]. unfold wordlike. simpl. by rewrite Hc.
    + by apply wordlike_push.
Qed.

Lemma split_of_word w : wordlike w → split w = [w].
Proof.
  unfold wordlike. destruct w as [|c r]; [done|]. simpl truthy.
  revert c. induction r as [|d r IH]; intros c.
  - simpl. destruct (isspace c); naive_solver.
  - intros H. simpl in H. destruct (isspace c) eqn:Hc; [done|].
    destruct (isspace d) eqn:Hd; [done|]. simpl in H.
    rewrite split_cons_word by done. simpl starts_space. rewrite Hd.
    rewrite IH; [done|]. simpl. by rewrite Hd.
Qed.

Lemma bind_split_words l : Forall (λ w, wordlike w) l → l ≫= split = l.
Proof.
  induction 1 as [|w l Hw _ IH]; [done|].
  rewrite bind_cons, IH. by rewrite split_of_word.
Qed.

Lemma concat_push c l : concat (push c l) = String c (concat l).
Proof. by destruct l. Qed.

Lemma concat_re_split_go m s : concat (re_split_go m s) = s.
Proof.
  revert m. induction s as [|c r IH]; intros m; [by destruct m|].
  simpl. destruct m, (isspace c), (ispunct c && starts_space r);
    simpl; rewrite ?concat_push, ?IH; try done.
  all: change (concat ("" :: ?l)) with (concat l);
    by rewrite ?concat_push, ?IH.
Qed.

(** The pieces of [re.split] reassemble to the text. *)
Lemma concat_re_split s : concat (re_split s) = s.
Proof. apply concat_re_split_go. Qed.

End PyFacts.

(** Rewriting one token of a list of words: the words before it stay,
    the words of the replacement take its place. *)
Lemma split_join_insert ws q s :
  Forall (λ w, Py.wordlike w) ws → q < length ws →
  Py.split (Py.join " " (<[q:=s]> ws))
  = take q ws ++ Py.split s ++ drop (S q) ws.
Proof.
  intros Hws Hq. rewrite split_join, insert_take_drop by done.
  rewrite bind_app, bind_cons.
  rewrite !bind_split_words; [done|by apply Forall_drop|by apply Forall_take].
Qed.

(** ** The Word Resolver *)

Section ResolverFacts.

Import GeoCapitalizer IntegratedCapitalizer.

Variable lookup : string → option GeoRecord.

Lemma and_then_Return r n d :
  (r ;> n) = Return d ↔ r = Return d ∨ (r = Fallthrough ∧ n = Return d).
Proof. destruct r; simpl; intuition congruence. Qed.

Lemma and_then_safe r n : r ≠ Raise → n ≠ Raise → (r ;> n) ≠ Raise.
Proof. by destruct r. Qed.

Lemma mem_true x l : Py.mem x l = true ↔ x ∈ l.
Proof. unfold Py.mem. by rewrite bool_decide_eq_true. Qed.

Lemma mem_false x l : Py.mem x l = false ↔ x ∉ l.
Proof. unfold Py.mem. by rewrite bool_decide_eq_false. Qed.

(** A term rule either falls through or proposes its transform of the
    lower-case word, which then differs from the word. *)
Lemma rule_terms_cases terms f reason w :
  rule_terms terms f reason w = Fallthrough
  ∨ (Py.lower w ∈ terms ∧ w ≠ f (Py.lower w)
     ∧ rule_terms terms f reason w = Return (true, f (Py.lower w), reason)).
Proof.
  unfold rule_terms. destruct (Py.mem _ _) eqn:Hm; [|by left].
  case_bool_decide; [|by left]. right. by rewrite mem_true in Hm.
Qed.

Lemma rule_terms_fixed terms f reason w :
  w = f (Py.lower w) → rule_terms terms f reason w = Fallthrough.
Proof.
  intros Hw. by destruct (rule_terms_cases terms f reason w) as [?|(_ & ? & _)].
Qed.

Lemma rule_terms_fires terms f reason w :
  Py.lower w ∈ terms → w ≠ f (Py.lower w) →
  rule_terms terms f reason w = Return (true, f (Py.lower w), reason).
Proof.
  intros Hin Hne. unfold rule_terms. apply mem_true in Hin. rewrite Hin.
  by rewrite bool_decide_eq_true_2.
Qed.

Lemma rule_terms_skips terms f reason w :
  Py.lower w ∉ terms → rule_terms terms f reason w = Fallthrough.
Proof. intros Hin. unfold rule_terms. apply mem_false in Hin. by rewrite Hin. Qed.

(** The holiday loop returns at the first holiday term that equals the
    lower-case word or occurs in the lower-case context, when the word
    is not its own title-case form. *)
Lemma rule_holiday_fires hs w c h :
  h ∈ hs →
  Py.lower w = h ∨ Py.contains h (Py.lower c) = true →
  w ≠ Py.title (Py.lower w) →
  rule_holiday hs w c = Return (true, Py.title (Py.lower w), "Holiday").
Proof.
  intros Hin Hm Hne. induction Hin as [h hs|h h' hs _ IH]; simpl.
  - assert (bool_decide (Py.lower w = h) || Py.contains h (Py.lower c) = true)
      as ->.
    { destruct Hm as [Hm|Hm]; rewrite ?Hm, ?orb_true_r; [|done].
      by rewrite bool_decide_eq_true_2. }
    by rewrite bool_decide_eq_true_2.
  - rewrite IH by done. rewrite (bool_decide_eq_true_2 (w ≠ _)) by done.
    by destruct (_ || _).
Qed.

Lemma rule_holiday_cases hs w c :
  rule_holiday hs w c = Fallthrough
  ∨ (w ≠ Py.title (Py.lower w)
     ∧ (∃ h, h ∈ hs ∧ (Py.lower w = h ∨ Py.contains h (Py.lower c) = true))
     ∧ rule_holiday hs w c = Return (true, Py.title (Py.lower w), "Holiday")).
Proof.
  induction hs as [|h hs IH]; [by left|]. simpl.
  destruct (bool_decide (Py.lower w = h) || Py.contains h (Py.lower c)) eqn:Hm.
  - destruct (bool_decide (w ≠ Py.title (Py.lower w))) eqn:Hne.
    + apply bool_decide_eq_true in Hne.
      right. split; [done|]. split; [|done]. exists h. split; [left|].
      apply orb_true_iff in Hm as [Hm|Hm]; [left|by right].
      by apply bool_decide_eq_true in Hm.
    + apply bool_decide_eq_false in Hne.
      destruct IH as [IH|(? & _ & _)]; [by left|done].
  - destruct IH as [IH|(? & (h' & ? & ?) & ?)]; [by left|].
    right. split; [done|]. split; [|done]. exists h'. split; [by right|done].
Qed.

(** The rank and title rule never raises: the token after the word is
    read only when it exists, and a token of [split] is not empty. *)
Lemma rule_rank_title_cases w c :
  rule_rank_title w c = Fallthrough
  ∨ (w ≠ Py.capitalize (Py.lower w)
     ∧ (Py.lower w ∈ military_ranks ∨ Py.lower w ∈ titles)
     ∧ ∃ reason, rule_rank_title w c
                 = Return (true, Py.capitalize (Py.lower w), reason)).
Proof.
  unfold rule_rank_title.
  destruct (Py.mem (Py.lower w) military_ranks || Py.mem (Py.lower w) titles)
    eqn:Hm; [|by left].
  destruct (Py.index w (Py.split c)) as [i|]; [|by left].
  destruct (i + 1 <? length (Py.split c)) eqn:Hi; [|by left].
  apply Nat.ltb_lt in Hi.
  destruct (lookup_lt_is_Some_2 _ _ Hi) as [next Hnext]. rewrite Hnext.
  assert (Py.wordlike next) as Hw.
  { pose proof (split_wordlike c) as Hall.
    rewrite Forall_forall in Hall. apply Hall.
    by eapply list_elem_of_lookup_2. }
  destruct next as [|ch next]; [done|].
  destruct (Py.isupper ch); [|by left].
  case_bool_decide; [|by left].
  right. split; [done|]. split; [|by eexists].
  apply orb_true_iff in Hm as [Hm|Hm]; apply mem_true in Hm; auto.
Qed.

Lemma rule_deity_cases w :
  rule_deity w = Fallthrough
  ∨ (w ≠ Py.capitalize (Py.lower w) ∧ Py.lower w ∈ deities
     ∧ rule_deity w = Return (true, Py.capitalize (Py.lower w), "Deity")).
Proof.
  unfold rule_deity. destruct (Py.mem _ deities) eqn:Hm; [|by left].
  apply mem_true in Hm.
  destruct (rule_terms_cases ["god"; "allah"; "jesus"; "christ"; "buddha"]
              Py.capitalize "Deity" w) as [->|(_ & ? & ->)]; [by left|by right].
Qed.

Lemma rule_direction_falls w : rule_direction w = Fallthrough.
Proof. unfold rule_direction. by destruct (Py.mem _ _). Qed.

Lemma rule_geo_safe w : rule_geo lookup w ≠ Raise.
Proof.
  unfold rule_geo. destruct (check_capitalization lookup w) as [[[] ?]|]; done.
Qed.

Lemma check_word_flow_safe w c : check_word_flow lookup w c ≠ Raise.
Proof.
  unfold check_word_flow.
  repeat (apply and_then_safe; [|]); try done.
  - apply rule_geo_safe.
  - destruct (rule_terms_cases days Py.capitalize "Day of week" w) as [->|(_&_&->)]; done.
  - destruct (rule_terms_cases months Py.capitalize "Month" w) as [->|(_&_&->)]; done.
  - destruct (rule_holiday_cases holidays w c) as [->|(_&_&->)]; done.
  - destruct (rule_terms_cases languages Py.capitalize "Language" w) as [->|(_&_&->)]; done.
  - destruct (rule_rank_title_cases w c) as [->|(_&_&?&->)]; done.
  - destruct (rule_terms_cases religions Py.capitalize "Religion" w) as [->|(_&_&->)]; done.
  - destruct (rule_deity_cases w) as [->|(_&_&->)]; done.
  - destruct (rule_terms_cases seasons (λ s, s) "Season (lowercase)" w) as [->|(_&_&->)]; done.
  - by rewrite rule_direction_falls.
Qed.

(** [check_word] returns a decision for every word and context. *)
Lemma check_word_total w c : is_Some (check_word lookup w c).
Proof.
  unfold check_word. pose proof (check_word_flow_safe w c).
  destruct (check_word_flow lookup w c); by eauto.
Qed.

(** A word the Name Store knows in its canonical form is settled by
    the geographic rule. *)
Lemma rule_geo_known w :
  get_correct_capitalization lookup w = Some w →
  rule_geo lookup w = Return (false, w, "Correct").
Proof.
  intros Hk. unfold rule_geo, check_capitalization. rewrite Hk.
  by rewrite bool_decide_eq_true_2.
Qed.

Lemma rule_geo_unknown w :
  get_correct_capitalization lookup w = None →
  rule_geo lookup w = Fallthrough.
Proof. intros Hk. unfold rule_geo, check_capitalization. by rewrite Hk. Qed.

Lemma and_then_Fallthrough r n :
  (r ;> n) = Fallthrough ↔ r = Fallthrough ∧ n = Fallthrough.
Proof. destruct r; simpl; intuition congruence. Qed.

(** The holiday loop reads the context only through the occurrence
    tests of the holiday terms. *)
Lemma rule_holiday_context hs w c1 c2 :
  Forall (λ h, Py.contains h (Py.lower c1) = Py.contains h (Py.lower c2)) hs →
  rule_holiday hs w c1 = rule_holiday hs w c2.
Proof.
  induction 1 as [|h hs Hh _ IH]; [done|]. simpl. by rewrite Hh, IH.
Qed.

Lemma rule_holiday_free w c :
  Props.holiday_free c = true →
  rule_holiday holidays w c = rule_holiday holidays w "".
Proof.
  intros Hc. apply rule_holiday_context.
  unfold Props.holiday_free in Hc. rewrite forallb_forall in Hc.
  assert (Props.holiday_free "" = true) as He by reflexivity.
  unfold Props.holiday_free in He. rewrite forallb_forall in He.
  apply Forall_forall. intros h Hh. apply list_elem_of_In in Hh.
  specialize (Hc h Hh). specialize (He h Hh).
  apply negb_true_iff in Hc, He. by rewrite Hc, He.
Qed.

(** A settled word that the Name Store does not know needs no
    correction in a context without holiday terms. *)
Lemma settled_check_word w c :
  get_correct_capitalization lookup w = None →
  Props.holiday_free c = true →
  Props.settled w = true →
  check_word lookup w c = Some (false, w, "Correct").
Proof.
  intros Hk Hc Hs. unfold Props.settled in Hs.
  apply andb_true_iff in Hs as [Hrank Hlex].
  destruct (Props.lexical_flow w) eqn:Hflow; try done. clear Hlex.
  unfold Props.lexical_flow in Hflow.
  repeat (apply and_then_Fallthrough in Hflow as [? Hflow]).
  assert (rule_rank_title w c = Fallthrough) as Hrt.
  { destruct (rule_rank_title_cases w c) as [?|(Hne & Hin & _)]; [done|].
    unfold Props.rank_inert in Hrank.
    apply orb_true_iff in Hrank as [Hfix|Hno].
    - by apply bool_decide_eq_true in Hfix.
    - apply negb_true_iff, orb_false_iff in Hno as [Hr Ht].
      apply mem_false in Hr, Ht. by destruct Hin. }
  unfold check_word, check_word_flow.
  rewrite rule_geo_unknown, rule_holiday_free, Hrt, rule_direction_falls by done.
  by repeat match goal with H : _ = Fallthrough |- _ => rewrite H; clear H end.
Qed.

Lemma proposals_settled w : w ∈ Props.proposals → Props.settled w = true.
Proof.
  assert (forallb Props.settled Props.proposals = true) as H
    by (vm_compute; reflexivity).
  rewrite forallb_forall in H. intros Hw. by apply H, list_elem_of_In.
Qed.

Lemma capitalize_proposal lw :
  lw ∈ days ++ months ++ languages ++ military_ranks ++ titles ++ religions
       ++ ["god"; "allah"; "jesus"; "christ"; "buddha"] →
  Py.capitalize lw ∈ Props.proposals.
Proof.
  intros H. unfold Props.proposals. apply elem_of_app. left.
  apply list_elem_of_fmap. by exists lw.
Qed.

(** What the lexical rules propose in a context without holiday
    terms is one of the listed proposals. *)
Lemma check_word_proposal w c w' reason :
  get_correct_capitalization lookup w = None →
  Props.holiday_free c = true →
  check_word lookup w c = Some (true, w', reason) →
  w' ∈ Props.proposals.
Proof.
  intros Hk Hc. unfold check_word.
  destruct (check_word_flow lookup w c) as [d| |] eqn:Hflow; [|done..].
  intros [= ->]. unfold check_word_flow in Hflow.
  rewrite rule_geo_unknown, rule_holiday_free, rule_direction_falls in Hflow
    by done.
  repeat (apply and_then_Return in Hflow as [Hflow|[_ Hflow]]); try done.
  - destruct (rule_terms_cases days Py.capitalize "Day of week" w)
      as [E|(Hin & _ & E)]; rewrite E in Hflow; [done|].
    injection Hflow as <- _. apply capitalize_proposal.
    rewrite !elem_of_app. tauto.
  - destruct (rule_terms_cases months Py.capitalize "Month" w)
      as [E|(Hin & _ & E)]; rewrite E in Hflow; [done|].
    injection Hflow as <- _. apply capitalize_proposal.
    rewrite !elem_of_app. tauto.
  - destruct (rule_holiday_cases holidays w "")
      as [E|(_ & (h & Hin & Hm) & E)]; rewrite E in Hflow; [done|].
    injection Hflow as <- _. destruct Hm as [->|Hm].
    + unfold Props.proposals. rewrite !elem_of_app. right. left.
      apply list_elem_of_fmap. by eexists.
    + assert (Props.holiday_free "" = true) as He by reflexivity.
      unfold Props.holiday_free in He. rewrite forallb_forall in He.
      apply list_elem_of_In, He, negb_true_iff in Hin. congruence.
  - destruct (rule_terms_cases languages Py.capitalize "Language" w)
      as [E|(Hin & _ & E)]; rewrite E in Hflow; [done|].
    injection Hflow as <- _. apply capitalize_proposal.
    rewrite !elem_of_app. tauto.
  - destruct (rule_rank_title_cases w c)
      as [E|(_ & Hin & r & E)]; rewrite E in Hflow; [done|].
    injection Hflow as <- _. apply capitalize_proposal.
    rewrite !elem_of_app. tauto.
  - destruct (rule_terms_cases religions Py.capitalize "Religion" w)
      as [E|(Hin & _ & E)]; rewrite E in Hflow; [done|].
    injection Hflow as <- _. apply capitalize_proposal.
    rewrite !elem_of_app. tauto.
  - unfold rule_deity in Hflow. destruct (Py.mem _ deities); [|done].
    destruct (rule_terms_cases ["god"; "allah"; "jesus"; "christ"; "buddha"]
                Py.capitalize "Deity" w)
      as [E|(Hin & _ & E)]; rewrite E in Hflow; [done|].
    injection Hflow as <- _. apply capitalize_proposal.
    rewrite !elem_of_app. tauto.
  - destruct (rule_terms_cases seasons (λ s, s) "Season (lowercase)" w)
      as [E|(Hin & _ & E)]; rewrite E in Hflow; [done|].
    injection Hflow as <- _.
    unfold Props.proposals. rewrite !elem_of_app. tauto.
Qed.

End ResolverFacts.

(** ** The Phrase Scanner and the Text Rewriter *)

Section ScannerFacts.

Import GeoCapitalizer IntegratedCapitalizer.

Variable lookup : string → option GeoRecord.

Lemma span_correction_position i span reason c :
  span_correction lookup i span reason = Some c → position c = i.
Proof.
  unfold span_correction.
  destruct (check_capitalization lookup span) as [[[] ?]|]; naive_solver.
Qed.

Lemma try_word_position phrase words i found :
  try_word lookup phrase words i = Some found →
  found = [] ∨ ∃ c, found = [c] ∧ position c = i.
Proof.
  unfold try_word. destruct (words !! i) as [w|]; [|done]. simpl.
  destruct (check_word lookup w phrase) as [[[[] ?] ?]|]; simpl; [| |done].
  - intros [= <-]. right. by eexists.
  - intros [= <-]. by left.
Qed.

(** The loop body appends at most one correction at index [i], and its
    position is [i]. *)
Lemma check_index_position phrase words i found :
  check_index lookup phrase words i = Some found →
  found = [] ∨ ∃ c, found = [c] ∧ position c = i.
Proof.
  unfold check_index.
  destruct (try_three lookup words i) as [c3|] eqn:H3.
  { intros [= <-]. right. exists c3. split; [done|].
    unfold try_three in H3. destruct (i + 2 <? length words); [|done].
    by eapply span_correction_position. }
  destruct (try_two lookup words i) as [c2|] eqn:H2.
  { intros [= <-]. right. exists c2. split; [done|].
    unfold try_two in H2. destruct (i + 1 <? length words); [|done].
    by eapply span_correction_position. }
  apply try_word_position.
Qed.

Lemma check_index_total phrase words i :
  i < length words → is_Some (check_index lookup phrase words i).
Proof.
  intros Hi. unfold check_index.
  destruct (try_three lookup words i); [by eauto|].
  destruct (try_two lookup words i); [by eauto|].
  unfold try_word. destruct (lookup_lt_is_Some_2 _ _ Hi) as [w ->]. simpl.
  destruct (check_word_total lookup w phrase) as [[[b ?] ?] ->]. simpl.
  by eauto.
Qed.

Lemma check_indices_total phrase words indices :
  Forall (λ i, i < length words) indices →
  is_Some (check_indices lookup phrase words indices).
Proof.
  induction 1 as [|i indices Hi _ [later IH]]; [by eexists|]. simpl.
  destruct (check_index_total phrase words i Hi) as [found ->]. simpl.
  rewrite IH. simpl. by eauto.
Qed.

(** Over the indices [a, a+1, ..., a+k-1] the scanner emits corrections
    whose positions lie in that range and strictly increase. *)
Lemma check_indices_seq phrase words k : ∀ a cs,
  check_indices lookup phrase words (seq a k) = Some cs →
  Forall (λ c, a ≤ position c < a + k) cs ∧ StronglySorted ascending cs.
Proof.
  induction k as [|k IH]; intros a cs; simpl.
  - intros [= <-]. split; constructor.
  - destruct (check_index lookup phrase words a) as [found|] eqn:Hf; [|done].
    simpl. destruct (check_indices lookup phrase words (seq (S a) k))
      as [later|] eqn:Hl; [|done].
    simpl. intros [= <-].
    apply IH in Hl as [Hrange Hsorted].
    apply check_index_position in Hf as [->|(c & -> & Hc)]; simpl.
    + split; [|done]. eapply Forall_impl; [exact Hrange|]. simpl. lia.
    + split.
      * constructor; [lia|]. eapply Forall_impl; [exact Hrange|]. simpl. lia.
      * constructor; [done|]. eapply Forall_impl; [exact Hrange|].
        unfold ascending. simpl. lia.
Qed.

Lemma check_phrase_total phrase : is_Some (check_phrase lookup phrase).
Proof.
  apply check_indices_total, Forall_forall. intros i Hi.
  apply elem_of_seq in Hi. lia.
Qed.

Lemma check_phrase_positions phrase cs :
  check_phrase lookup phrase = Some cs →
  Forall (λ c, position c < length (Py.split phrase)) cs
  ∧ StronglySorted ascending cs.
Proof.
  intros H. apply check_indices_seq in H as [Hr Hs]. split; [|done].
  eapply Forall_impl; [exact Hr|]. simpl. lia.
Qed.

(** Sorting corrections of strictly increasing position by decreasing
    position reverses them. *)
Lemma insert_desc_last c l :
  Forall (ascending c) l → insert_desc c l = l ++ [c].
Proof.
  induction 1 as [|d l Hd _ IH]; [done|]. simpl.
  unfold ascending in Hd.
  destruct (position d <=? position c) eqn:Hle.
  - apply Nat.leb_le in Hle. lia.
  - by rewrite IH.
Qed.

Lemma sorted_desc_ascending cs :
  StronglySorted ascending cs → sorted_desc cs = reverse cs.
Proof.
  induction 1 as [|c cs _ IH Hc]; [done|].
  unfold sorted_desc in *. simpl. rewrite IH, reverse_cons.
  apply insert_desc_last. by apply Forall_reverse.
Qed.

Lemma reverse_ascending cs :
  StronglySorted ascending cs → StronglySorted descending (reverse cs).
Proof.
  induction 1 as [|c cs _ IH Hc]; [constructor|].
  rewrite reverse_cons. apply StronglySorted_app. split_and!; [|done|].
  - intros d e Hd He. apply list_elem_of_singleton in He as ->.
    rewrite elem_of_reverse in Hd. rewrite Forall_forall in Hc.
    by apply Hc.
  - repeat constructor.
Qed.

Lemma sorted_desc_length cs : length (sorted_desc cs) = length cs.
Proof.
  induction cs as [|c cs IH]; [done|].
  unfold sorted_desc in *. simpl. rewrite <- IH.
  generalize (foldr insert_desc [] cs). intros l.
  induction l as [|d l IHl]; [done|]. simpl.
  destruct (position d <=? position c); simpl; by rewrite ?IHl.
Qed.

(** Visiting positions from the highest down, every position is still
    a valid index when its turn comes: a substitution leaves the tokens
    before it as they were. *)
Lemma apply_corrections_descending ds : ∀ corrected bound,
  StronglySorted descending ds →
  Forall (λ c, position c < bound) ds →
  bound ≤ length (Py.split corrected) →
  is_Some (apply_corrections corrected ds).
Proof.
  induction ds as [|c ds IH]; intros corrected bound Hs Hb Hlen; [by eexists|].
  apply StronglySorted_cons in Hs as [Hc Hs].
  apply Forall_cons in Hb as [Hp Hb].
  simpl. unfold apply_correction.
  assert (position c < length (Py.split corrected)) as Hin by lia.
  apply Nat.ltb_lt in Hin as Hin'. rewrite Hin'. simpl.
  apply (IH _ (position c)); [done|done|].
  rewrite split_join_insert by auto using split_wordlike.
  rewrite length_app, length_take_le by lia. lia.
Qed.

(** The Text Rewriter succeeds on what the Phrase Scanner emits. *)
Lemma rewrite_sentence_total sentence cs :
  check_phrase lookup sentence = Some cs →
  is_Some (rewrite_sentence sentence cs).
Proof.
  intros H. apply check_phrase_positions in H as [Hr Hs].
  unfold rewrite_sentence. rewrite sorted_desc_ascending by done.
  apply (apply_corrections_descending _ _ (length (Py.split sentence))).
  - by apply reverse_ascending.
  - by apply Forall_reverse.
  - done.
Qed.

Lemma correct_sentences_total sentences :
  is_Some (correct_sentences lookup sentences).
Proof.
  induction sentences as [|s sentences [[pieces changes] IH]]; [by eexists|].
  simpl. rewrite IH. destruct (negb _); simpl; [by eauto|].
  destruct (check_phrase_total s) as [cs Hcs]. rewrite Hcs. simpl.
  destruct (rewrite_sentence_total s cs Hcs) as [s' ->]. simpl. by eauto.
Qed.

End ScannerFacts.

(** ** The claims about the Word Resolver *)

Section ResolverClaims.

Import GeoCapitalizer IntegratedCapitalizer.

Variable lookup : string → option GeoRecord.

(** C5. A word that the Name Store knows resolves by the geographic
    rule alone, whatever the context and whatever lexical category its
    lower-case form belongs to: when it equals its canonical form the
    answer is "no correction", reason "Correct"; otherwise the answer
    is the canonical form, reason "Geographic name".  The lexical
    rules are not consulted. *)
Theorem check_word_known (w c k : string) :
  get_correct_capitalization lookup w = Some k →
  check_word lookup w c
  = Some (if decide (w = k) then (false, w, "Correct")
          else (true, k, "Geographic name")).
Proof.
  intros Hk. unfold check_word, check_word_flow, rule_geo, check_capitalization.
  rewrite Hk. destruct (decide (w = k)) as [->|Hne].
  - by rewrite bool_decide_eq_true_2.
  - by rewrite bool_decide_eq_false_2.
Qed.

(** C8. A word that reaches the holiday rule (unknown to the Name
    Store, lower-case form neither a day nor a month) is corrected to
    the title-case form of its lower-case form, reason "Holiday", as
    soon as some holiday term equals the lower-case word or occurs in
    the lower-case context, and the word differs from that form. *)
Theorem check_word_holiday (w c h : string) :
  check_capitalization lookup w = None →
  Py.mem (Py.lower w) days = false →
  Py.mem (Py.lower w) months = false →
  Py.mem h holidays = true →
  Py.lower w = h ∨ Py.contains h (Py.lower c) = true →
  w ≠ Py.title (Py.lower w) →
  check_word lookup w c = Some (true, Py.title (Py.lower w), "Holiday").
Proof.
  intros Hgeo Hday Hmonth Hh Hmatch Hne.
  unfold check_word, check_word_flow, rule_geo. rewrite Hgeo.
  rewrite (rule_terms_skips days) by (by apply mem_false).
  rewrite (rule_terms_skips months) by (by apply mem_false).
  apply mem_true in Hh.
  by rewrite (rule_holiday_fires holidays w c h).
Qed.

(** X1. In contexts without holiday terms the resolver is idempotent:
    when it proposes [w'] for a word, and the Name Store either has
    [w'] as a canonical form or knows neither the word nor [w'], then
    [w'] needs no correction. *)
Lemma check_word_idempotent (w c c' w' reason : string) :
  Props.holiday_free c = true →
  Props.holiday_free c' = true →
  check_word lookup w c = Some (true, w', reason) →
  get_correct_capitalization lookup w' = Some w'
  ∨ (get_correct_capitalization lookup w = None
     ∧ get_correct_capitalization lookup w' = None) →
  check_word lookup w' c' = Some (false, w', "Correct").
Proof.
  intros Hc Hc' Hfirst [Hknown|[Hw Hw']].
  - unfold check_word, check_word_flow. by rewrite rule_geo_known.
  - apply settled_check_word; [done..|].
    apply proposals_settled. by apply (check_word_proposal lookup w c w' reason).
Qed.

End ResolverClaims.

(** ** The claims about the Text Rewriter and the report *)

Section RewriterClaims.

Import GeoCapitalizer IntegratedCapitalizer.

Variable lookup : string → option GeoRecord.

(** C7, as the code has it. With an empty correction list the Text
    Rewriter returns the sentence itself, character for character: the
    tokens are split and rejoined only when a correction is applied. *)
Theorem rewrite_sentence_nil (s : string) : rewrite_sentence s [] = Some s.
Proof. reflexivity. Qed.

(** C9. [analyze_text] returns a report for every text: no index
    access of the resolver, the scanner or the rewriter is out of
    bounds. *)
Theorem analyze_text_total (text : string) :
  ∃ r, analyze_text lookup text = Some r ∧ original_text r = text.
Proof.
  unfold analyze_text, correct_text.
  destruct (correct_sentences_total lookup (Py.re_split text))
    as [[pieces changes] ->].
  simpl. by eexists.
Qed.

Lemma sorted_desc_nil cs : sorted_desc cs = [] → cs = [].
Proof.
  intros H. apply (f_equal length) in H. rewrite sorted_desc_length in H.
  by destruct cs.
Qed.

(** Without changes every piece of the text comes back as it was. *)
Lemma correct_sentences_unchanged sentences : ∀ pieces,
  correct_sentences lookup sentences = Some (pieces, []) → pieces = sentences.
Proof.
  induction sentences as [|s sentences IH]; intros pieces; simpl.
  - by intros [= <-].
  - destruct (correct_sentences lookup sentences) as [[pieces' changes']|] eqn:Hr.
    2: { destruct (negb _); [done|]. destruct (check_phrase lookup s); [|done].
         simpl. by destruct (rewrite_sentence s l). }
    destruct (negb _); simpl.
    + intros [= <- ->]. f_equal. by apply IH.
    + destruct (check_phrase lookup s) as [cs|]; [|done]. simpl.
      destruct (rewrite_sentence s cs) as [s'|] eqn:Hs'; [|done]. simpl.
      intros [= <- Hnil]. apply app_eq_nil in Hnil as [Hcs ->].
      apply sorted_desc_nil in Hcs as ->.
      injection Hs' as <-.
      f_equal. by apply IH.
Qed.

(** C10. When [analyze_text] reports no correction, the corrected
    text is the original text, character for character. *)
Theorem analyze_text_unchanged (text : string) :
  total_corrections <$> analyze_text lookup text = Some 0 →
  corrected_text <$> analyze_text lookup text = Some text.
Proof.
  unfold analyze_text, correct_text.
  destruct (correct_sentences lookup (Py.re_split text))
    as [[pieces changes]|] eqn:Hr; [|done].
  simpl. intros [= Hlen]. destruct changes; [|done].
  apply correct_sentences_unchanged in Hr as ->.
  by rewrite concat_re_split.
Qed.

End RewriterClaims.

(** ** The claims about the Phrase Scanner *)

Section ScannerClaims.

Import GeoCapitalizer IntegratedCapitalizer.

Variable lookup : string → option GeoRecord.

Lemma check_indices_elem phrase words indices : ∀ cs,
  check_indices lookup phrase words indices = Some cs →
  Forall (λ c, position c ∈ indices) cs.
Proof.
  induction indices as [|i indices IH]; intros cs; simpl.
  - intros [= <-]. constructor.
  - destruct (check_index lookup phrase words i) as [found|] eqn:Hf; [|done].
    simpl. destruct (check_indices lookup phrase words indices)
      as [later|]; [|done].
    simpl. intros [= <-]. apply Forall_app. split.
    + apply check_index_position in Hf as [->|(c & -> & <-)];
        repeat constructor.
    + eapply Forall_impl; [by apply IH|]. simpl. intros c Hc. by right.
Qed.

(** The corrections at position [i] are what the loop body appended at
    index [i]. *)
Lemma check_indices_filter phrase words i indices : ∀ cs,
  NoDup indices → i ∈ indices →
  check_indices lookup phrase words indices = Some cs →
  ∃ found, check_index lookup phrase words i = Some found
           ∧ filter (λ c, position c = i) cs = found.
Proof.
  induction indices as [|j indices IH]; intros cs Hnd Hi; [by inversion Hi|].
  apply NoDup_cons in Hnd as [Hj Hnd]. simpl.
  destruct (check_index lookup phrase words j) as [found|] eqn:Hf; [|done].
  simpl. destruct (check_indices lookup phrase words indices)
    as [later|] eqn:Hl; [|done].
  simpl. intros [= <-]. rewrite filter_app.
  destruct (decide (i = j)) as [->|Hne].
  - exists found. split; [done|].
    apply check_indices_elem in Hl.
    assert (filter (λ c, position c = j) later = []) as ->.
    { clear -Hl Hj. induction Hl as [|c later Hc _ IH]; [done|].
      rewrite filter_cons_False; [done|]. by intros <-. }
    rewrite app_nil_r.
    apply check_index_position in Hf as [->|(c & -> & <-)]; [done|].
    by rewrite filter_cons_True.
  - apply elem_of_cons in Hi as [?|Hi]; [done|].
    destruct (IH later Hnd Hi eq_refl) as (found' & ? & Hfilter).
    exists found'. split; [done|]. rewrite Hfilter.
    apply check_index_position in Hf as [->|(c & -> & Hc)]; [done|].
    rewrite filter_cons_False by congruence. done.
Qed.

Lemma slice_two (words : list string) i w1 w2 :
  words !! i = Some w1 → words !! (i + 1) = Some w2 →
  Py.slice words i (i + 2) = [w1; w2].
Proof.
  intros H1 H2. unfold Py.slice. replace (i + 2 - i) with 2 by lia.
  rewrite (drop_S _ _ _ H1). replace (i + 1) with (S i) in H2 by lia.
  by rewrite (drop_S _ _ _ H2).
Qed.

Lemma slice_three (words : list string) i w1 w2 w3 :
  words !! i = Some w1 → words !! (i + 1) = Some w2 →
  words !! (i + 2) = Some w3 →
  Py.slice words i (i + 3) = [w1; w2; w3].
Proof.
  intros H1 H2 H3. unfold Py.slice. replace (i + 3 - i) with 3 by lia.
  rewrite (drop_S _ _ _ H1). replace (i + 1) with (S i) in H2 by lia.
  rewrite (drop_S _ _ _ H2). replace (i + 2) with (S (S i)) in H3 by lia.
  by rewrite (drop_S _ _ _ H3).
Qed.

(** C4, as the code has it. Where a three-word span is a known name
    whose text differs from its canonical form, the scanner emits
    exactly one correction at that index: the three-word one.  Where a
    two-word span is such a name and no three-word correction applies
    at the same index, the scanner emits exactly one correction at
    that index: the two-word one (so no one-word correction there). *)
Theorem check_phrase_two_words (phrase : string) (i : nat) :
  ∃ cs, check_phrase lookup phrase = Some cs
        ∧ (∀ w1 w2 w3 k,
             Py.split phrase !! i = Some w1 →
             Py.split phrase !! (i + 1) = Some w2 →
             Py.split phrase !! (i + 2) = Some w3 →
             check_capitalization lookup (w1 +:+ " " +:+ w2 +:+ " " +:+ w3)
             = Some (false, k) →
             filter (λ c, position c = i) cs
             = [{| position := i;
                   original := w1 +:+ " " +:+ w2 +:+ " " +:+ w3;
                   correct := k; reason := "Geographic name (3 words)" |}])
        ∧ (∀ w1 w2 k,
             Py.split phrase !! i = Some w1 →
             Py.split phrase !! (i + 1) = Some w2 →
             check_capitalization lookup (w1 +:+ " " +:+ w2) = Some (false, k) →
             try_three lookup (Py.split phrase) i = None →
             filter (λ c, position c = i) cs
             = [{| position := i; original := w1 +:+ " " +:+ w2;
                   correct := k; reason := "Geographic name (2 words)" |}]).
Proof.
  destruct (check_phrase_total lookup phrase) as [cs Hcs].
  exists cs. split; [done|]. unfold check_phrase in Hcs.
  assert (∀ w1, Py.split phrase !! i = Some w1 →
            ∃ found, check_index lookup phrase (Py.split phrase) i = Some found
                     ∧ filter (λ c, position c = i) cs = found) as Hat.
  { intros w1 H1. apply (check_indices_filter _ _ i) in Hcs; [done| |].
    - apply NoDup_seq.
    - apply elem_of_seq. apply lookup_lt_Some in H1. lia. }
  split.
  - intros w1 w2 w3 k H1 H2 H3 Hcap.
    destruct (Hat w1 H1) as (found & Hf & ->).
    unfold check_index, try_three in Hf.
    apply lookup_lt_Some in H3 as Hlen. apply Nat.ltb_lt in Hlen.
    rewrite Hlen, (slice_three _ _ _ _ _ H1 H2 H3) in Hf.
    unfold span_correction in Hf. simpl Py.join in Hf. rewrite Hcap in Hf.
    simpl in Hf. by injection Hf as <-.
  - intros w1 w2 k H1 H2 Hcap H3.
    destruct (Hat w1 H1) as (found & Hf & ->).
    unfold check_index in Hf. rewrite H3 in Hf. unfold try_two in Hf.
    apply lookup_lt_Some in H2 as Hlen. apply Nat.ltb_lt in Hlen.
    rewrite Hlen, (slice_two _ _ _ _ H1 H2) in Hf.
    unfold span_correction in Hf. simpl Py.join in Hf. rewrite Hcap in Hf.
    simpl in Hf. by injection Hf as <-.
Qed.

End ScannerClaims.

(** ** Letter case, sentence boundaries and tokens *)

Ltac by_cases c := destruct c as [[] [] [] [] [] [] [] []]; reflexivity.

Section TextFacts.

Import IntegratedCapitalizer Props.

Lemma isspace_to_lower c : Py.isspace (Py.to_lower c) = Py.isspace c.
Proof. by_cases c. Qed.
Lemma to_lower_to_lower c : Py.to_lower (Py.to_lower c) = Py.to_lower c.
Proof. by_cases c. Qed.
Lemma to_lower_to_upper c : Py.to_lower (Py.to_upper c) = Py.to_lower c.
Proof. by_cases c. Qed.
Lemma ispunct_not_space c : Py.ispunct c = true → Py.isspace c = false.
Proof. destruct c as [[] [] [] [] [] [] [] []]; (reflexivity || discriminate). Qed.

Lemma lower_lower s : Py.lower (Py.lower s) = Py.lower s.
Proof. induction s as [|c r IH]; [done|]. simpl. by rewrite to_lower_to_lower, IH. Qed.

Lemma lower_capitalize s : Py.lower (Py.capitalize s) = Py.lower s.
Proof. destruct s as [|c r]; [done|]. simpl. by rewrite to_lower_to_upper, lower_lower. Qed.

Lemma lower_title_go b s : Py.lower (Py.title_go b s) = Py.lower s.
Proof.
  revert b. induction s as [|c r IH]; intros b; [done|]. simpl. rewrite IH.
  by destruct b; rewrite ?to_lower_to_lower, ?to_lower_to_upper.
Qed.

Lemma nospace_lower s : Py.nospace (Py.lower s) = Py.nospace s.
Proof. induction s as [|c r IH]; [done|]. simpl. by rewrite isspace_to_lower, IH. Qed.

Lemma wordlike_lower s : Py.wordlike (Py.lower s) = Py.wordlike s.
Proof. unfold Py.wordlike. rewrite nospace_lower. by destruct s. Qed.



Lemma app_empty_r s : s +:+ "" = s.
Proof. induction s as [|c r IH]; [done|]. by rewrite app_cons, IH. Qed.


Lemma re_split_go_calm_end s : calm s = true → Py.re_split_go false s = [s].
Proof.
  induction s as [|c r IH]; [done|]. simpl. intros H.
  apply andb_true_iff in H as [Hc Hr]. apply negb_true_iff in Hc.
  by rewrite Hc, IH.
Qed.














Lemma wordlike_same w t : same_letters w t → Py.wordlike w = Py.wordlike t.
Proof. intros H. by rewrite <- (wordlike_lower w), H, wordlike_lower. Qed.








Lemma apply_correction_tokens corrected c :
  Py.wordlike (correct c) → position c < length (Py.split corrected) →
  ∃ s, apply_correction corrected c = Some s
       ∧ Py.split s = substitute (Py.split corrected) c
       ∧ s = Py.join " " (Py.split s).
Proof.
  intros Hw Hp. unfold apply_correction. apply Nat.ltb_lt in Hp as Hp'.
  rewrite Hp'. eexists. split; [done|].
  assert (Py.split (Py.join " " (<[position c:=correct c]> (Py.split corrected)))
          = <[position c:=correct c]> (Py.split corrected)) as E.
  { rewrite split_join. apply bind_split_words.
    apply Forall_insert; [apply split_wordlike|done]. }
  by rewrite E.
Qed.

Lemma apply_corrections_tokens ds : ∀ corrected,
  Forall (λ c, Py.wordlike (correct c)
               ∧ position c < length (Py.split corrected)) ds →
  ∃ s, apply_corrections corrected ds = Some s
       ∧ Py.split s = foldl substitute (Py.split corrected) ds
       ∧ (ds ≠ [] → s = Py.join " " (Py.split s)).
Proof.
  induction ds as [|c ds IH]; intros corrected Hds.
  - by exists corrected.
  - apply Forall_cons in Hds as [[Hw Hp] Hds]. simpl.
    destruct (apply_correction_tokens corrected c Hw Hp) as (s & -> & Hs & Hjoin).
    simpl. destruct (IH s) as (s' & Hs' & Htok & Hj).
    { eapply Forall_impl; [exact Hds|]. simpl. intros d [? ?]. split; [done|].
      rewrite Hs. unfold substitute. by rewrite length_insert. }
    exists s'. split; [done|]. split; [by rewrite Htok, Hs|].
    intros _. destruct ds as [|d ds]; [|by apply Hj].
    simpl in Hs'. by injection Hs' as <-.
Qed.



Lemma foldl_substitute_same ds : ∀ ws cur,
  Forall2 same_letters ws cur →
  Forall (λ c, ∃ w, ws !! position c = Some w ∧ same_letters w (correct c)) ds →
  Forall2 same_letters ws (foldl substitute cur ds).
Proof.
  induction ds as [|c ds IH]; intros ws cur Hcur Hds; [done|].
  apply Forall_cons in Hds as [(w & Hw & Hsame) Hds]. simpl.
  apply IH; [|done]. unfold substitute.
  rewrite <- (list_insert_id ws (position c) w Hw).
  by apply Forall2_insert.
Qed.






End TextFacts.

(** ** A Name Store that matches nothing: the lexical rules alone *)

Section LexicalFacts.

Import GeoCapitalizer IntegratedCapitalizer Props.

Variable lookup : string → option GeoRecord.
Hypothesis Hnone : ∀ s, lookup s = None.

Lemma unknown s : get_correct_capitalization lookup s = None.
Proof. unfold get_correct_capitalization. by rewrite Hnone. Qed.

Lemma span_correction_none i span reason :
  span_correction lookup i span reason = None.
Proof. unfold span_correction, check_capitalization. by rewrite unknown. Qed.

Lemma check_index_word phrase words i :
  check_index lookup phrase words i = try_word lookup phrase words i.
Proof.
  unfold check_index, try_three, try_two. rewrite !span_correction_none.
  by destruct (_ <? _), (_ <? _).
Qed.


(** Every proposal of a lexical rule is a case variant of the word. *)
Lemma check_word_same_letters w c w' reason :
  check_word lookup w c = Some (true, w', reason) → same_letters w w'.
Proof.
  unfold check_word, same_letters.
  destruct (check_word_flow lookup w c) as [d| |] eqn:Hflow; [|done..].
  intros [= ->]. unfold check_word_flow in Hflow.
  rewrite rule_geo_unknown, rule_direction_falls in Hflow by apply unknown.
  repeat (apply and_then_Return in Hflow as [Hflow|[_ Hflow]]); try done.
  - destruct (rule_terms_cases days Py.capitalize "Day of week" w)
      as [E|(_ & _ & E)]; rewrite E in Hflow; [done|].
    injection Hflow as <- _. by rewrite lower_capitalize, lower_lower.
  - destruct (rule_terms_cases months Py.capitalize "Month" w)
      as [E|(_ & _ & E)]; rewrite E in Hflow; [done|].
    injection Hflow as <- _. by rewrite lower_capitalize, lower_lower.
  - destruct (rule_holiday_cases holidays w c)
      as [E|(_ & _ & E)]; rewrite E in Hflow; [done|].
    injection Hflow as <- _. unfold Py.title. by rewrite lower_title_go, lower_lower.
  - destruct (rule_terms_cases languages Py.capitalize "Language" w)
      as [E|(_ & _ & E)]; rewrite E in Hflow; [done|].
    injection Hflow as <- _. by rewrite lower_capitalize, lower_lower.
  - destruct (rule_rank_title_cases w c)
      as [E|(_ & _ & r & E)]; rewrite E in Hflow; [done|].
    injection Hflow as <- _. by rewrite lower_capitalize, lower_lower.
  - destruct (rule_terms_cases religions Py.capitalize "Religion" w)
      as [E|(_ & _ & E)]; rewrite E in Hflow; [done|].
    injection Hflow as <- _. by rewrite lower_capitalize, lower_lower.
  - destruct (rule_deity_cases w) as [E|(_ & _ & E)]; rewrite E in Hflow; [done|].
    injection Hflow as <- _. by rewrite lower_capitalize, lower_lower.
  - destruct (rule_terms_cases seasons (λ s, s) "Season (lowercase)" w)
      as [E|(_ & _ & E)]; rewrite E in Hflow; [done|].
    injection Hflow as <- _. by rewrite lower_lower.
Qed.


Lemma try_word_emitted phrase words i found :
  try_word lookup phrase words i = Some found →
  (found = [] ∧ ∃ w d, words !! i = Some w ∧ check_word lookup w phrase = Some (false, d.1, d.2))
  ∨ (∃ c, found = [c] ∧ position c = i ∧ emitted lookup phrase words c).
Proof.
  unfold try_word, emitted. destruct (words !! i) as [w|] eqn:Hw; [|done]. simpl.
  destruct (check_word lookup w phrase) as [[[[] x] r]|] eqn:Hc; simpl; [| |done].
  - intros [= <-]. right. eexists. split; [done|]. split; [done|]. simpl.
    by exists w.
  - intros [= <-]. left. split; [done|]. by exists w, (x, r).
Qed.

Lemma check_indices_emitted phrase words indices : ∀ cs,
  check_indices lookup phrase words indices = Some cs →
  Forall (emitted lookup phrase words) cs.
Proof.
  induction indices as [|i indices IH]; intros cs; simpl.
  - intros [= <-]. constructor.
  - rewrite check_index_word.
    destruct (try_word lookup phrase words i) as [found|] eqn:Hf; [|done].
    simpl. destruct (check_indices lookup phrase words indices)
      as [later|]; [|done].
    simpl. intros [= <-]. apply Forall_app. split; [|by apply IH].
    apply try_word_emitted in Hf as [[-> _]|(c & -> & _ & Hc)]; by repeat constructor.
Qed.



End LexicalFacts.

(** ** Scenarios on concrete databases *)

Section Scenarios.

Import GeoCapitalizer IntegratedCapitalizer.

(** The literal scenarios of the specification for the resolver and the
    scanner. *)
Example resolve_york :
  check_word (lookup_name Stores.nowhere) "york" "" = Some (false, "york", "Correct").
Proof. reflexivity. Qed.

Example resolve_monday :
  check_word (lookup_name Stores.nowhere) "monday" ""
  = Some (true, "Monday", "Day of week").
Proof. reflexivity. Qed.

Example resolve_captain_before_name :
  check_word (lookup_name Stores.nowhere) "captain" "captain Smith arrived"
  = Some (true, "Captain", "Military rank before name").
Proof. reflexivity. Qed.

Example resolve_captain_alone :
  check_word (lookup_name Stores.nowhere) "captain" "the captain arrived"
  = Some (false, "captain", "Correct").
Proof. reflexivity. Qed.

Example resolve_god :
  check_word (lookup_name Stores.nowhere) "god" "" = Some (true, "God", "Deity").
Proof. reflexivity. Qed.

Example scan_new_york :
  check_phrase (lookup_name Stores.new_york) "new york"
  = Some [{| position := 0; original := "new york"; correct := "New York";
             reason := "Geographic name (2 words)" |}].
Proof. vm_compute. reflexivity. Qed.

Example split_sentences :
  Py.re_split "Is it? Yes.  Fine" = ["Is it"; "? "; "Yes"; ".  "; "Fine"].
Proof. reflexivity. Qed.

(** C1. On "I visited new york on monday.", with a Name Store that
    knows "New York" and no other span of the sentence, [analyze_text]
    returns "I visited New York york on monday." with one correction:
    the token "york" of the span stays, and the last token "monday."
    with its full stop is not a day. *)
Theorem analyze_new_york_monday :
  let lookup := lookup_name Stores.new_york in
  get_correct_capitalization lookup "new york" = Some "New York"
  ∧ Forall (λ span, get_correct_capitalization lookup span = None)
      ["I"; "visited"; "new"; "york"; "on"; "monday.";
       "I visited"; "visited new"; "york on"; "on monday.";
       "I visited new"; "visited new york"; "new york on"; "york on monday."]
  ∧ ∃ r, analyze_text lookup "I visited new york on monday." = Some r
         ∧ corrected_text r = "I visited New York york on monday."
         ∧ total_corrections r = 1
         ∧ stats r = {[ "Geographic name (2 words)" := 1 ]}.
Proof.
  split; [reflexivity|]. split; [by repeat constructor|].
  eexists. split; [vm_compute; reflexivity|]. by repeat split.
Qed.

(** C2. Rewriting "I visited new york" with the correction the
    scanner emits for the span "new york" replaces the token at the
    span's position only: the second token of the span, "york",
    remains after the canonical form. *)
Theorem rewrite_two_word_span :
  let c := {| position := 2; original := "new york"; correct := "New York";
              reason := "Geographic name (2 words)" |} in
  check_phrase (lookup_name Stores.new_york) "I visited new york" = Some [c]
  ∧ rewrite_sentence "I visited new york" [c] = Some "I visited New York york".
Proof. split; vm_compute; reflexivity. Qed.

(** C3. On "new york", with "New York" and "York" in the Name Store,
    the scanner emits the two-word correction at position 0, which
    covers tokens 0 and 1, and a correction at position 1 as well. *)
Theorem check_phrase_overlap :
  let c0 := {| position := 0; original := "new york"; correct := "New York";
               reason := "Geographic name (2 words)" |} in
  let c1 := {| position := 1; original := "york"; correct := "York";
               reason := "Geographic name" |} in
  check_phrase (lookup_name Stores.york) "new york" = Some [c0; c1]
  ∧ Props.last_token c0 = 1
  ∧ Props.overlap c0 c1 = true.
Proof. repeat split; vm_compute; reflexivity. Qed.

(** C4 fails as stated: with a three-word name at the same index the
    two-word correction is not emitted, although the two-word and the
    one-word interpretation both exist. *)
Lemma check_phrase_three_words_first :
  let lookup := lookup_name Stores.bay in
  check_capitalization lookup "san francisco" = Some (false, "San Francisco")
  ∧ check_capitalization lookup "san" = Some (false, "San")
  ∧ check_phrase lookup "san francisco bay"
    = Some [{| position := 0; original := "san francisco bay";
               correct := "San Francisco Bay";
               reason := "Geographic name (3 words)" |}].
Proof. repeat split; vm_compute; reflexivity. Qed.

(** In "see san francisco today" the span "san francisco" and the word
    "san" are both known; in "see san francisco bay" the three-word
    span is known as well. *)
Lemma check_phrase_two_words_witness :
  (check_capitalization (lookup_name Stores.bay) "san" = Some (false, "San")
   ∧ ∃ cs, check_phrase (lookup_name Stores.bay) "see san francisco today"
           = Some cs
           ∧ filter (λ c, position c = 1) cs
             = [{| position := 1; original := "san francisco";
                   correct := "San Francisco";
                   reason := "Geographic name (2 words)" |}])
  ∧ (∃ cs, check_phrase (lookup_name Stores.bay) "see san francisco bay"
           = Some cs
           ∧ filter (λ c, position c = 1) cs
             = [{| position := 1; original := "san francisco bay";
                   correct := "San Francisco Bay";
                   reason := "Geographic name (3 words)" |}]).
Proof.
  split; [split; [reflexivity|]|].
  - destruct (check_phrase_two_words (lookup_name Stores.bay)
                "see san francisco today" 1) as (cs & Hcs & _ & Htwo).
    exists cs. split; [exact Hcs|].
    apply (Htwo "san" "francisco" "San Francisco"); reflexivity.
  - destruct (check_phrase_two_words (lookup_name Stores.bay)
                "see san francisco bay" 1) as (cs & Hcs & Hthree & _).
    exists cs. split; [exact Hcs|].
    apply (Hthree "san" "francisco" "bay" "San Francisco Bay"); reflexivity.
Defined.

(** "march" is a month and the place March: the answer is the place.
    "Spring" is the place Spring and, in lower case, a season: it
    stays. *)
Lemma check_word_known_witness :
  (Py.mem (Py.lower "march") months = true
   ∧ check_word (lookup_name Stores.march) "march" "in march"
     = Some (true, "March", "Geographic name"))
  ∧ (Py.mem (Py.lower "Spring") seasons = true
     ∧ check_word (lookup_name Stores.nowhere) "Spring" "in Spring"
       = Some (true, "spring", "Season (lowercase)")
     ∧ check_word (lookup_name Stores.spring) "Spring" "in Spring"
       = Some (false, "Spring", "Correct")).
Proof.
  split; (split; [reflexivity|]).
  - apply (check_word_known (lookup_name Stores.march) "march" "in march"
             "March").
    reflexivity.
  - split; [reflexivity|].
    apply (check_word_known (lookup_name Stores.spring) "Spring" "in Spring"
             "Spring").
    reflexivity.
Defined.

Lemma check_word_holiday_witness :
  check_word (lookup_name Stores.nowhere) "merry" "merry christmas"
  = Some (true, "Merry", "Holiday").
Proof.
  apply (check_word_holiday (lookup_name Stores.nowhere)
           "merry" "merry christmas" "christmas");
    [reflexivity|reflexivity|reflexivity|reflexivity|by right|discriminate].
Defined.


Example check_word_twice :
  check_word (lookup_name Stores.nowhere) "monday" "see you monday"
  = Some (true, "Monday", "Day of week")
  ∧ check_word (lookup_name Stores.nowhere) "Monday" "see you Monday"
    = Some (false, "Monday", "Correct").
Proof.
  split; [reflexivity|].
  apply (check_word_idempotent (lookup_name Stores.nowhere)
           "monday" "see you monday" "see you Monday" "Monday" "Day of week");
    [reflexivity|reflexivity|reflexivity|right; split; reflexivity].
Defined.

(** The rank and title rule reads the capitalization of the next
    token, which the first pass may change. *)
Example analyze_text_rank_after_day :
  let lookup := lookup_name Stores.nowhere in
  corrected_text <$> analyze_text lookup "captain monday" = Some "captain Monday"
  ∧ total_corrections <$> analyze_text lookup "captain Monday" = Some 1.
Proof. split; vm_compute; reflexivity. Qed.

(** C7 fails as stated: with no correction the two spaces of "a  b"
    stay. *)
Lemma rewrite_sentence_nil_not_normalized :
  rewrite_sentence "a  b" [] = Some "a  b"
  ∧ Py.join " " (Py.split "a  b") = "a b"
  ∧ rewrite_sentence "a  b" [] ≠ Some (Py.join " " (Py.split "a  b")).
Proof. repeat split; discriminate. Qed.

Lemma analyze_text_unchanged_witness :
  total_corrections
    <$> analyze_text (lookup_name Stores.nowhere) "Hello   world.  All fine"
  = Some 0
  ∧ corrected_text
      <$> analyze_text (lookup_name Stores.nowhere) "Hello   world.  All fine"
    = Some "Hello   world.  All fine".
Proof.
  split; [vm_compute; reflexivity|].
  apply (analyze_text_unchanged (lookup_name Stores.nowhere)
           "Hello   world.  All fine").
  vm_compute; reflexivity.
Defined.

End Scenarios.

(** * Further properties of the code *)

(** ** Word Resolver, Phrase Scanner, Text Rewriter and report *)

Section CheckerFacts.

Import GeoCapitalizer IntegratedCapitalizer Props Reports.

Variable lookup : string → option GeoRecord.

(** X2. The corrections that [check_phrase] returns are in strictly
    ascending order of position, each position an index of a token of
    the phrase: no index has two corrections, and the rewriter never
    substitutes out of range. *)
Theorem check_phrase_ordered (phrase : string) (cs : list Correction) :
  check_phrase lookup phrase = Some cs →
  StronglySorted ascending cs
  ∧ Forall (λ c, position c < length (Py.split phrase)) cs.
Proof.
  intros Hcs. by destruct (check_phrase_positions lookup phrase cs Hcs).
Qed.

Lemma count_reasons_go (l : list Correction) : ∀ (acc : gmap string nat) k,
  default 0 (foldl (λ stats change,
           <[reason change := default 0 (stats !! reason change) + 1]> stats)
        acc l !! k)
  = default 0 (acc !! k) + length (filter (λ c, reason c = k) l).
Proof.
  induction l as [|c l IH]; intros acc k; simpl; [lia|].
  rewrite IH. destruct (decide (reason c = k)) as [<-|Hne].
  - rewrite lookup_insert_eq, filter_cons_True by done. simpl. lia.
  - rewrite lookup_insert_ne, filter_cons_False by done. done.
Qed.

(** X3. In the report of [analyze_text], [total_corrections] is the
    number of changes, and [stats] counts for every reason the changes
    that carry it (a reason without an entry has none). *)
Theorem stats_count (text : string) :
  ∃ r, analyze_text lookup text = Some r
       ∧ total_corrections r = length (changes r)
       ∧ ∀ k, default 0 (stats r !! k)
              = length (filter (λ c, reason c = k) (changes r)).
Proof.
  unfold analyze_text, correct_text.
  destruct (correct_sentences_total lookup (Py.re_split text))
    as [[pieces chs] ->].
  simpl. eexists. split; [done|]. simpl. split; [done|]. intros k.
  unfold count_reasons. rewrite count_reasons_go. by rewrite lookup_empty.
Qed.

Lemma allspace_calm s : allspace s = true → calm s = true.
Proof.
  induction s as [|c r IH]; [done|]. simpl. intros H.
  apply andb_true_iff in H as [Hc Hr]. rewrite IH by done.
  destruct (Py.ispunct c) eqn:Hp; [|done].
  apply ispunct_not_space in Hp. congruence.
Qed.

Lemma lstrip_allspace s : allspace s = true → Py.lstrip s = "".
Proof.
  induction s as [|c r IH]; [done|]. simpl. intros H.
  apply andb_true_iff in H as [Hc Hr]. rewrite Hc. by apply IH.
Qed.

(** X4. A text of white space only is reported unchanged, with no
    change and empty statistics. *)
Theorem analyze_text_blank (text : string) :
  allspace text = true →
  analyze_text lookup text
  = Some {| original_text := text; corrected_text := text; changes := [];
            stats := ∅; total_corrections := 0 |}.
Proof.
  intros H. unfold analyze_text, correct_text, Py.re_split.
  rewrite re_split_go_calm_end by by apply allspace_calm.
  simpl. unfold Py.strip. rewrite lstrip_allspace by done. simpl.
  by rewrite app_empty_r.
Qed.

Lemma fall_then n : (Fallthrough ;> n) = n.
Proof. reflexivity. Qed.

Lemma return_then d n : (Return d ;> n) = Return d.
Proof. reflexivity. Qed.

Lemma rule_rank_title_reason w c d :
  rule_rank_title w c = Return d → d.2 ∈ reasons.
Proof.
  unfold rule_rank_title.
  destruct (Py.mem (Py.lower w) military_ranks || Py.mem (Py.lower w) titles);
    [|done].
  destruct (Py.index w (Py.split c)) as [i|]; [|done].
  destruct (i + 1 <? length (Py.split c)); [|done].
  destruct (Py.split c !! (i + 1)) as [[|ch next]|]; [done| |done].
  destruct (Py.isupper ch); [|done].
  destruct (bool_decide (w ≠ Py.capitalize (Py.lower w))); [|done].
  intros [= <-]. simpl.
  destruct (Py.mem (Py.lower w) military_ranks); by apply mem_true.
Qed.

Lemma check_word_flow_cases (w c : string) :
  (rule_geo lookup w ≠ Fallthrough
   ∧ check_word_flow lookup w c = rule_geo lookup w)
  ∨ (rule_geo lookup w = Fallthrough
     ∧ (check_word_flow lookup w c = Return (false, w, "Correct")
        ∨ ∃ f r, check_word_flow lookup w c = Return (true, f, r)
                 ∧ f ≠ w ∧ Py.lower f = Py.lower w ∧ r ∈ reasons)).
Proof.
  unfold check_word_flow.
  destruct (rule_geo lookup w) as [d| |] eqn:Hgeo; [by left| |by left].
  right. split; [done|]. rewrite fall_then, rule_direction_falls.
  destruct (rule_terms_cases days Py.capitalize "Day of week" w)
    as [->|(_ & Hne & ->)]; rewrite ?fall_then, ?return_then.
  2: { right. eexists _, _. split; [done|]. split; [done|].
       split; [by rewrite lower_capitalize, lower_lower|by apply mem_true]. }
  destruct (rule_terms_cases months Py.capitalize "Month" w)
    as [->|(_ & Hne & ->)]; rewrite ?fall_then, ?return_then.
  2: { right. eexists _, _. split; [done|]. split; [done|].
       split; [by rewrite lower_capitalize, lower_lower|by apply mem_true]. }
  destruct (rule_holiday_cases holidays w c)
    as [->|(Hne & _ & ->)]; rewrite ?fall_then, ?return_then.
  2: { right. eexists _, _. split; [done|]. split; [done|].
       split; [|by apply mem_true].
       unfold Py.title. by rewrite lower_title_go, lower_lower. }
  destruct (rule_terms_cases languages Py.capitalize "Language" w)
    as [->|(_ & Hne & ->)]; rewrite ?fall_then, ?return_then.
  2: { right. eexists _, _. split; [done|]. split; [done|].
       split; [by rewrite lower_capitalize, lower_lower|by apply mem_true]. }
  destruct (rule_rank_title_cases w c)
    as [->|(Hne & _ & r & Hr)]; rewrite ?Hr, ?fall_then, ?return_then.
  2: { right. eexists _, _. split; [done|]. split; [done|].
       split; [by rewrite lower_capitalize, lower_lower|].
       apply (rule_rank_title_reason w c _ Hr). }
  destruct (rule_terms_cases religions Py.capitalize "Religion" w)
    as [->|(_ & Hne & ->)]; rewrite ?fall_then, ?return_then.
  2: { right. eexists _, _. split; [done|]. split; [done|].
       split; [by rewrite lower_capitalize, lower_lower|by apply mem_true]. }
  destruct (rule_deity_cases w) as [->|(Hne & _ & ->)]; rewrite ?fall_then, ?return_then.
  2: { right. eexists _, _. split; [done|]. split; [done|].
       split; [by rewrite lower_capitalize, lower_lower|by apply mem_true]. }
  destruct (rule_terms_cases seasons (λ s, s) "Season (lowercase)" w)
    as [->|(_ & Hne & ->)]; rewrite ?fall_then, ?return_then.
  2: { right. eexists _, _. split; [done|]. split; [done|].
       split; [by rewrite lower_lower|by apply mem_true]. }
  by left.
Qed.

Lemma check_word_consistent (w c : string) :
  ∃ b f r, check_word lookup w c = Some (b, f, r)
           ∧ (b = false → f = w ∧ r = "Correct")
           ∧ (b = true → f ≠ w).
Proof.
  unfold check_word.
  destruct (check_word_flow_cases w c) as [[_ ->]|[_ [->|(f & r & -> & Hne & _)]]].
  - unfold rule_geo, check_capitalization.
    destruct (get_correct_capitalization lookup w) as [k|].
    + case_bool_decide as Hk; simpl; eexists _, _, _; (split; [done|]).
      * by split.
      * split; [done|]. by intros _ ->.
    + exists false, w, "Correct". by repeat split.
  - exists false, w, "Correct". by repeat split.
  - exists true, f, r. by repeat split.
Qed.

(** X5. The answer of [check_word] is consistent: without a correction
    the form is the word itself and the reason "Correct"; with a
    correction the form differs from the word. *)
Theorem check_word_reports (w c : string) (b : bool) (f r : string) :
  check_word lookup w c = Some (b, f, r) →
  (b = false → f = w ∧ r = "Correct") ∧ (b = true → f ≠ w).
Proof.
  destruct (check_word_consistent w c) as (b' & f' & r' & -> & H).
  by intros [= <- <- <-].
Qed.

(** X6. For an ASCII word the Name Store does not know, the form that
    [check_word] returns differs from the word in letter case only. *)
Theorem check_word_case_only (w c : string) :
  Py.isascii w = true →
  get_correct_capitalization lookup w = None →
  ∃ b f r, check_word lookup w c = Some (b, f, r) ∧ Py.lower f = Py.lower w.
Proof.
  intros _ Hk. unfold check_word.
  destruct (check_word_flow_cases w c) as [[Hgeo _]|[_ [->|(f & r & -> & _ & Hl & _)]]].
  - by rewrite rule_geo_unknown in Hgeo.
  - by exists false, w, "Correct".
  - by exists true, f, r.
Qed.

Lemma check_word_genuine w c f r :
  check_word lookup w c = Some (true, f, r) → f ≠ w ∧ r ∈ reasons.
Proof.
  unfold check_word.
  destruct (check_word_flow_cases w c)
    as [[_ ->]|[_ [->|(f' & r' & -> & Hne & _ & Hr)]]].
  - unfold rule_geo, check_capitalization.
    destruct (get_correct_capitalization lookup w) as [k|]; [|done].
    case_bool_decide as Hk; simpl; [done|]. intros [= <- <-].
    split; [by intros ->|by apply mem_true].
  - done.
  - by intros [= <- <-].
Qed.

Lemma span_correction_genuine i span why c :
  why ∈ reasons → span_correction lookup i span why = Some c → genuine c.
Proof.
  unfold span_correction, check_capitalization. intros Hwhy.
  destruct (get_correct_capitalization lookup span) as [k|]; [|done].
  case_bool_decide as Hk; simpl; [done|]. intros [= <-].
  split; [simpl; by intros ->|done].
Qed.

Lemma check_index_genuine phrase words i found :
  check_index lookup phrase words i = Some found → Forall genuine found.
Proof.
  unfold check_index.
  destruct (try_three lookup words i) as [c3|] eqn:H3.
  { intros [= <-]. constructor; [|constructor]. unfold try_three in H3.
    destruct (i + 2 <? length words); [|done].
    eapply span_correction_genuine; [|exact H3]. by apply mem_true. }
  destruct (try_two lookup words i) as [c2|] eqn:H2.
  { intros [= <-]. constructor; [|constructor]. unfold try_two in H2.
    destruct (i + 1 <? length words); [|done].
    eapply span_correction_genuine; [|exact H2]. by apply mem_true. }
  unfold try_word. destruct (words !! i) as [w|]; [|done]. simpl.
  destruct (check_word lookup w phrase) as [[[[] f] r]|] eqn:Hc; simpl;
    [| |done]; intros [= <-]; [|constructor].
  constructor; [|constructor]. by apply check_word_genuine in Hc as [? ?].
Qed.

Lemma check_indices_genuine phrase words indices : ∀ cs,
  check_indices lookup phrase words indices = Some cs → Forall genuine cs.
Proof.
  induction indices as [|i indices IH]; intros cs; simpl.
  - intros [= <-]. constructor.
  - destruct (check_index lookup phrase words i) as [found|] eqn:Hf; [|done].
    simpl. destruct (check_indices lookup phrase words indices)
      as [later|]; [|done].
    simpl. intros [= <-]. apply Forall_app. split; [|by apply IH].
    by eapply check_index_genuine.
Qed.

Lemma correct_sentences_genuine sentences : ∀ pieces chs,
  correct_sentences lookup sentences = Some (pieces, chs) → Forall genuine chs.
Proof.
  induction sentences as [|s sentences IH]; intros pieces chs; simpl.
  - intros [= <- <-]. constructor.
  - destruct (negb (Py.truthy (Py.strip s))).
    + destruct (correct_sentences lookup sentences) as [[rest later]|];
        [|done].
      simpl. intros [= <- <-]. by eapply IH.
    + destruct (check_phrase lookup s) as [cs|] eqn:Hcs; [|done]. simpl.
      destruct (rewrite_sentence s cs) as [s'|]; [|done]. simpl.
      destruct (correct_sentences lookup sentences) as [[rest later]|];
        [|done].
      simpl. intros [= <- <-]. apply Forall_app. split; [|by eapply IH].
      pose proof (check_phrase_positions lookup s cs Hcs) as [_ Hs].
      rewrite sorted_desc_ascending by done. apply Forall_reverse.
      unfold check_phrase in Hcs. by eapply check_indices_genuine.
Qed.

(** X7. Every change that [analyze_text] reports is a change: its
    correct form differs from its original text, and its reason is one
    of the twelve reasons of the rules, never "Correct". *)
Theorem changes_genuine (text : string) :
  ∃ r, analyze_text lookup text = Some r ∧ Forall genuine (changes r).
Proof.
  unfold analyze_text, correct_text.
  destruct (correct_sentences_total lookup (Py.re_split text))
    as [[pieces chs] Hcs].
  rewrite Hcs. simpl. eexists. split; [done|]. simpl. by eapply correct_sentences_genuine.
Qed.

Lemma rank_words_apart lw terms :
  lw ∈ military_ranks ++ titles →
  terms ∈ [days; months; holidays; languages; religions; deities; seasons] →
  lw ∉ terms.
Proof.
  assert (forallb (λ x, forallb (λ l, negb (Py.mem x l))
                     [days; months; holidays; languages; religions; deities;
                      seasons])
            (military_ranks ++ titles) = true) as H by (vm_compute; reflexivity).
  rewrite forallb_forall in H. intros Hin Hterms.
  apply list_elem_of_In, H in Hin. rewrite forallb_forall in Hin.
  apply list_elem_of_In, Hin, negb_true_iff in Hterms. by apply mem_false.
Qed.

Lemma rule_holiday_skips w c :
  holiday_free c = true → Py.lower w ∉ holidays →
  rule_holiday holidays w c = Fallthrough.
Proof.
  intros Hc Hw. rewrite rule_holiday_free by done.
  destruct (rule_holiday_cases holidays w "") as [?|(_ & (h & Hin & Hm) & _)];
    [done|].
  destruct Hm as [Hm|Hm]; [by subst h|].
  assert (holiday_free "" = true) as He by reflexivity.
  unfold holiday_free in He. rewrite forallb_forall in He.
  apply list_elem_of_In, He, negb_true_iff in Hin. congruence.
Qed.

(** X8. A military rank or a title that the Name Store does not know
    is left alone when it does not occur as a token of the context, or
    when its first occurrence is the last token (no holiday term in the
    context). *)
Theorem check_word_rank_unseen (w c : string) :
  get_correct_capitalization lookup w = None →
  holiday_free c = true →
  Py.mem (Py.lower w) (military_ranks ++ titles) = true →
  Py.index w (Py.split c) = None
  ∨ (∃ i, Py.index w (Py.split c) = Some i ∧ length (Py.split c) ≤ i + 1) →
  check_word lookup w c = Some (false, w, "Correct").
Proof.
  intros Hk Hc Hin Hedge. apply mem_true in Hin.
  assert (∀ terms,
            terms ∈ [days; months; holidays; languages; religions; deities;
                     seasons] → Py.lower w ∉ terms) as Hapart
    by (intros terms; by apply rank_words_apart).
  assert (rule_rank_title w c = Fallthrough) as Hrank.
  { unfold rule_rank_title. destruct (_ || _); [|done].
    destruct Hedge as [->|(i & -> & Hi)]; [done|].
    apply Nat.ltb_ge in Hi. by rewrite Hi. }
  assert (Py.lower w ∉ holidays) as Hh by (apply Hapart; (apply list_elem_of_In; simpl; tauto)).
  assert (Py.mem (Py.lower w) deities = false) as Hg
    by (apply mem_false, Hapart; (apply list_elem_of_In; simpl; tauto)).
  unfold check_word, check_word_flow, rule_deity.
  rewrite rule_geo_unknown, rule_holiday_skips, Hrank, rule_direction_falls, Hg
    by done.
  rewrite !rule_terms_skips; [done|apply Hapart; (apply list_elem_of_In; simpl; tauto)..].
Qed.

(** X9. Applying a correction at a position inside the sentence
    succeeds, and replaces exactly the token at that position by the
    tokens of the correct form: a form of several words lengthens the
    sentence and shifts the tokens behind it. *)
Theorem apply_correction_tokens_at (s : string) (c : Correction) :
  position c < length (Py.split s) →
  ∃ s', apply_correction s c = Some s'
        ∧ Py.split s'
          = take (position c) (Py.split s) ++ Py.split (correct c)
            ++ drop (S (position c)) (Py.split s).
Proof.
  intros Hp. unfold apply_correction. apply Nat.ltb_lt in Hp as Hp'.
  rewrite Hp'. eexists. split; [done|].
  apply split_join_insert; [apply split_wordlike|done].
Qed.

(** X10. When the Name Store matches nothing, scanning an ASCII
    sentence and applying the corrections found succeeds and keeps the
    tokens of the sentence, one for one, up to letter case. *)
Theorem rewrite_case_only (p : string) :
  Py.isascii p = true →
  (∀ s, lookup s = None) →
  ∃ cs p', check_phrase lookup p = Some cs
           ∧ rewrite_sentence p cs = Some p'
           ∧ Forall2 same_letters (Py.split p) (Py.split p').
Proof.
  intros _ Hnone. destruct (check_phrase_total lookup p) as [cs Hcs].
  exists cs. pose proof (check_phrase_positions lookup p cs Hcs) as [_ Hsorted].
  pose proof Hcs as Hem. unfold check_phrase in Hem.
  apply (check_indices_emitted lookup Hnone) in Hem.
  assert (Forall (λ c, ∃ w, Py.split p !! position c = Some w
                            ∧ same_letters w (correct c)) cs) as Hsame.
  { eapply Forall_impl; [exact Hem|]. simpl. intros c (w & Hw & Hc).
    exists w. split; [done|]. by eapply check_word_same_letters. }
  destruct (apply_corrections_tokens (reverse cs) p) as (s & Hs & Htok & _).
  { apply Forall_reverse. eapply Forall_impl; [exact Hsame|]. simpl.
    intros c (w & Hw & Hc). split.
    - rewrite <- (wordlike_same w) by done.
      pose proof (split_wordlike p) as Hall. rewrite Forall_forall in Hall.
      apply Hall. by eapply list_elem_of_lookup_2.
    - by eapply lookup_lt_Some. }
  exists s. split; [done|]. split.
  - unfold rewrite_sentence. by rewrite sorted_desc_ascending.
  - rewrite Htok. apply foldl_substitute_same; [|by apply Forall_reverse].
    apply Forall_Forall2_diag, Forall_true. by intros w.
Qed.

End CheckerFacts.

(** ** Idempotence of the analysis *)

Section PassFacts.

Import GeoCapitalizer IntegratedCapitalizer Props Passes.

Variable lookup : string → option GeoRecord.




























End PassFacts.

(** ** The Name Store *)

Section StoreFacts.

Import GeoCapitalizer.

Lemma fetchone_none rows : fetchone rows = None ↔ rows = [].
Proof.
  destruct rows as [|r rows]; [done|]. simpl.
  destruct (fetchone rows) as [r'|]; [destruct (_ <? _)%N|]; done.
Qed.

Lemma fetchone_best rows r :
  fetchone rows = Some r →
  r ∈ rows ∧ Forall (λ x, (population x ≤ population r)%N) rows.
Proof.
  revert r. induction rows as [|x rows IH]; intros r; [done|]. simpl.
  destruct (fetchone rows) as [r'|] eqn:Hr.
  - destruct (IH r' eq_refl) as [Hin Hall].
    destruct (population x <? population r')%N eqn:Hlt; intros [= <-].
    + apply N.ltb_lt in Hlt. split; [by right|]. constructor; [lia|done].
    + apply N.ltb_ge in Hlt. split; [by left|]. constructor; [lia|].
      eapply Forall_impl; [exact Hall|]. simpl. lia.
  - intros [= <-]. apply fetchone_none in Hr as ->.
    split; [by left|]. by repeat constructor.
Qed.

Lemma matches_exact_nocase q r :
  matches_exact q r = true → matches_nocase q r = true.
Proof.
  unfold matches_exact, matches_nocase. intros H.
  apply orb_true_iff in H as [H|H]; apply bool_decide_eq_true in H;
    apply orb_true_iff; [left|right]; apply bool_decide_eq_true.
  - by rewrite H.
  - by rewrite H.
Qed.

Lemma matches_nocase_lower q q' r :
  Py.lower q = Py.lower q' → matches_nocase q r = matches_nocase q' r.
Proof. unfold matches_nocase. by intros ->. Qed.

Lemma select_nil (f : GeoRecord → bool) (db : list GeoRecord) :
  filter (λ r, Is_true (f r)) db = [] ↔ Forall (λ r, f r = false) db.
Proof.
  induction db as [|x db IH]; [split; [constructor|done]|].
  rewrite Forall_cons, <- IH.
  destruct (f x) eqn:Hx.
  - rewrite filter_cons_True by by rewrite Hx. split; [done|]. by intros [].
  - rewrite filter_cons_False by (rewrite Hx; by intros []). tauto.
Qed.

Lemma select_elem (f : GeoRecord → bool) (db : list GeoRecord) r :
  r ∈ filter (λ r, Is_true (f r)) db ↔ f r = true ∧ r ∈ db.
Proof. rewrite list_elem_of_filter. by rewrite Is_true_true. Qed.

(** The two queries of [lookup_name] *)
Lemma lookup_name_cases db q :
  (∃ r, fetchone (filter (λ r, Is_true (matches_exact q r)) db) = Some r
        ∧ lookup_name db q = Some r)
  ∨ (Forall (λ r, matches_exact q r = false) db
     ∧ lookup_name db q
       = fetchone (filter (λ r, Is_true (matches_nocase q r)) db)).
Proof.
  unfold lookup_name.
  destruct (fetchone (filter (λ r, Is_true (matches_exact q r)) db))
    as [r|] eqn:He; [left; by exists r|right].
  split; [|done]. by apply select_nil, fetchone_none.
Qed.

Lemma lookup_name_None db q :
  lookup_name db q = None ↔ Forall (λ r, matches_nocase q r = false) db.
Proof.
  rewrite <- select_nil, <- fetchone_none.
  destruct (lookup_name_cases db q) as [(r & He & ->)|[_ ->]]; [|done].
  split; [done|]. intros Hn.
  apply fetchone_best in He as [Hin _].
  apply select_elem in Hin as [Hm Hin]. apply matches_exact_nocase in Hm.
  apply fetchone_none, select_nil in Hn. rewrite Forall_forall in Hn.
  by rewrite (Hn r Hin) in Hm.
Qed.

Lemma lookup_name_elem db q r :
  lookup_name db q = Some r → r ∈ db ∧ matches_nocase q r = true.
Proof.
  destruct (lookup_name_cases db q) as [(r' & He & ->)|[_ ->]].
  - intros [= <-]. apply fetchone_best in He as [Hin _].
    apply select_elem in Hin as [Hm Hin]. by apply matches_exact_nocase in Hm.
  - intros Hn. apply fetchone_best in Hn as [Hin _].
    by apply select_elem in Hin as [Hm Hin].
Qed.

(** X11. The row that [lookup_name] returns is a row of the table that
    matches the query up to letter case; it matches the query exactly
    unless no row of the table does. *)
Theorem lookup_name_sound db q r :
  lookup_name db q = Some r →
  r ∈ db ∧ matches_nocase q r = true
  ∧ (Forall (λ x, matches_exact q x = false) db ∨ matches_exact q r = true).
Proof.
  intros Hr. destruct (lookup_name_elem db q r Hr) as [Hin Hm].
  split; [done|]. split; [done|].
  destruct (lookup_name_cases db q) as [(r' & He & Hr')|[Hno _]]; [|by left].
  right. rewrite Hr in Hr'. injection Hr' as <-.
  apply fetchone_best in He as [He _]. by apply select_elem in He as [? _].
Qed.

(** X12. [lookup_name] finds nothing exactly when no row of the table
    matches the query up to letter case. *)
Theorem lookup_name_unknown db q :
  lookup_name db q = None ↔ Forall (λ r, matches_nocase q r = false) db.
Proof. apply lookup_name_None. Qed.

(** X13. No row that matches the query exactly has a larger population
    than the row returned; when the row returned is not an exact match,
    no row that matches up to letter case has. *)
Theorem lookup_name_most_populous db q r :
  lookup_name db q = Some r →
  Forall (λ x, matches_exact q x = true → (population x ≤ population r)%N) db
  ∧ (matches_exact q r = false →
     Forall (λ x, matches_nocase q x = true → (population x ≤ population r)%N) db).
Proof.
  intros Hr.
  destruct (lookup_name_cases db q) as [(r' & He & Hr')|[Hno Hn]].
  - rewrite Hr in Hr'. injection Hr' as <-.
    apply fetchone_best in He as [Hin Hall].
    apply select_elem in Hin as [Hm Hin].
    split; [|by rewrite Hm]. rewrite Forall_forall in Hall.
    apply Forall_forall. intros x Hx Hmx. apply Hall. by apply select_elem.
  - rewrite Hr in Hn. symmetry in Hn.
    apply fetchone_best in Hn as [_ Hall]. rewrite Forall_forall in Hall.
    rewrite Forall_forall in Hno. split.
    + apply Forall_forall. intros x Hx Hmx. by rewrite (Hno x Hx) in Hmx.
    + intros _. apply Forall_forall. intros x Hx Hmx. apply Hall.
      by apply select_elem.
Qed.

(** X14. Whether a name is known does not depend on the letter case of
    an ASCII query. *)
Theorem is_proper_name_case db q q' :
  Py.isascii q = true → Py.isascii q' = true →
  Py.lower q = Py.lower q' →
  is_proper_name (lookup_name db) q = is_proper_name (lookup_name db) q'.
Proof.
  intros _ _ Hl. unfold is_proper_name. apply bool_decide_ext.
  assert (lookup_name db q = None ↔ lookup_name db q' = None) as Hiff.
  { rewrite !lookup_name_None. split; intros H;
      (eapply Forall_impl; [exact H|]); simpl; intros r;
      by rewrite (matches_nocase_lower q q' r Hl). }
  tauto.
Qed.

(** X15. The canonical form given for a text is a name of the table:
    looking it up finds a row that matches it exactly.  When no row
    carries it as ASCII name under another name, the canonical form is
    its own canonical form. *)
Theorem canonical_form_known db t k :
  get_correct_capitalization (lookup_name db) t = Some k →
  ∃ r, lookup_name db k = Some r ∧ matches_exact k r = true
       ∧ (Forall (λ x, asciiname x = Some k → name x = k) db →
          get_correct_capitalization (lookup_name db) k = Some k).
Proof.
  unfold get_correct_capitalization.
  destruct (lookup_name db t) as [r0|] eqn:Ht; [|done]. intros [= <-].
  apply lookup_name_elem in Ht as [Hin _].
  destruct (lookup_name_cases db (name r0)) as [(r & He & Hr)|[Hno _]].
  - exists r. split; [done|]. rewrite Hr.
    apply fetchone_best in He as [He _]. apply select_elem in He as [Hex Hr0].
    split; [done|]. intros Huniq. rewrite Forall_forall in Huniq. simpl.
    unfold matches_exact in Hex. apply orb_true_iff in Hex as [Hex|Hex];
      apply bool_decide_eq_true in Hex; [by rewrite Hex|].
    by rewrite (Huniq r Hr0 Hex).
  - rewrite Forall_forall in Hno. specialize (Hno r0 Hin).
    unfold matches_exact in Hno. by rewrite bool_decide_eq_true_2 in Hno.
Qed.

End StoreFacts.

(** ** The phrase rules *)

Section PhraseRuleFacts.

Import GeoCapitalizer GeoPhrases.

Variable lookup : string → option GeoRecord.

Lemma to_upper_to_upper c : Py.to_upper (Py.to_upper c) = Py.to_upper c.
Proof. by_cases c. Qed.
Lemma to_upper_to_lower c : Py.to_upper (Py.to_lower c) = Py.to_upper c.
Proof. by_cases c. Qed.

Lemma capitalize_lower w : Py.capitalize (Py.lower w) = Py.capitalize w.
Proof. destruct w as [|c r]; [done|]. simpl. by rewrite to_upper_to_lower, lower_lower. Qed.

Lemma capitalize_capitalize w : Py.capitalize (Py.capitalize w) = Py.capitalize w.
Proof. destruct w as [|c r]; [done|]. simpl. by rewrite to_upper_to_upper, lower_lower. Qed.

Lemma lower_plain_form i w : Py.lower (plain_form i w) = Py.lower w.
Proof.
  unfold plain_form.
  destruct (Py.mem (Py.lower w) directions),
    (Py.mem (Py.lower w) generic_terms), (0 <? i);
    by rewrite ?lower_capitalize, ?lower_lower.
Qed.

Lemma plain_form_twice i w : plain_form i (plain_form i w) = plain_form i w.
Proof.
  unfold plain_form at 1. rewrite lower_plain_form. unfold plain_form.
  destruct (Py.mem (Py.lower w) directions),
    (Py.mem (Py.lower w) generic_terms), (0 <? i);
    by rewrite ?capitalize_capitalize, ?capitalize_lower, ?lower_lower.
Qed.

Lemma plain_forms_twice ws : ∀ i,
  plain_forms i (plain_forms i ws) = plain_forms i ws.
Proof.
  induction ws as [|w ws IH]; intros i; [done|]. simpl.
  by rewrite plain_form_twice, IH.
Qed.

Lemma plain_forms_wordlike ws : ∀ i,
  Forall (λ w, Py.wordlike w) ws → Forall (λ w, Py.wordlike w) (plain_forms i ws).
Proof.
  induction ws as [|w ws IH]; intros i Hws; [constructor|].
  apply Forall_cons in Hws as [Hw Hws]. simpl. constructor; [|by apply IH].
  rewrite <- wordlike_lower, lower_plain_form, wordlike_lower. done.
Qed.

Lemma rules_loop_returns words i w k :
  words !! i = Some w →
  Py.mem (Py.lower w) directions = true →
  i + 1 < length words →
  get_correct_capitalization lookup (Py.join " " (drop i words)) = Some k →
  k ≠ "" →
  (∀ j, j < i →
        get_correct_capitalization lookup (Py.join " " (drop j words)) = None) →
  ∀ n j result, j + n = i →
    rules_loop lookup words j (drop j words) result = k.
Proof.
  intros Hw Hdir Hlen Hk Hne Hbefore n.
  induction n as [|n IH]; intros j result Hj.
  - replace j with i by lia. rewrite (drop_S _ _ _ Hw). simpl. rewrite Hdir.
    assert ((i <? length words - 1) = true) as -> by (apply Nat.ltb_lt; lia).
    unfold is_proper_name. rewrite Hk.
    unfold get_correct_capitalization in Hk.
    destruct (lookup (Py.join " " (drop i words))); [|done].
    rewrite bool_decide_eq_true_2 by done. by destruct k.
  - destruct (lookup_lt_is_Some_2 words j) as [wj Hwj]; [lia|].
    rewrite (drop_S _ _ _ Hwj). simpl.
    assert (lookup (Py.join " " (drop j words)) = None) as Hnone.
    { specialize (Hbefore j). unfold get_correct_capitalization in Hbefore.
      destruct (lookup (Py.join " " (drop j words))); [|done].
      discriminate Hbefore; lia. }
    unfold is_proper_name. rewrite Hnone.
    rewrite bool_decide_eq_false_2 by (by intros []).
    destruct (Py.mem (Py.lower wj) directions).
    { destruct (j <? _); apply IH; lia. }
    destruct (Py.mem (Py.lower wj) generic_terms);
      [destruct (0 <? j); apply IH; lia|].
    destruct (get_correct_capitalization lookup wj) as [c|];
      [destruct (Py.truthy c)|]; apply IH; lia.
Qed.

(** X16. When a direction word that is not the last word opens a
    suffix of the phrase that the Name Store knows with a canonical
    form that is not empty, and no earlier suffix is known,
    [apply_capitalization_rules] returns the canonical form of that
    suffix alone: the words before it are dropped. *)
Theorem rules_direction_name (phrase : string) (i : nat) (w k : string) :
  Py.split phrase !! i = Some w →
  Py.mem (Py.lower w) directions = true →
  i + 1 < length (Py.split phrase) →
  get_correct_capitalization lookup (Py.join " " (drop i (Py.split phrase)))
  = Some k →
  k ≠ "" →
  (∀ j, j < i →
        get_correct_capitalization lookup
          (Py.join " " (drop j (Py.split phrase))) = None) →
  apply_capitalization_rules lookup phrase = k.
Proof.
  intros Hw Hdir Hlen Hk Hne Hbefore. unfold apply_capitalization_rules.
  by apply (rules_loop_returns (Py.split phrase) i w k Hw Hdir Hlen Hk Hne
              Hbefore i 0 []).
Qed.

Hypothesis Hnone : ∀ s, lookup s = None.

Lemma rules_loop_plain words rest : ∀ i result,
  rules_loop lookup words i rest result
  = Py.join " " (result ++ plain_forms i rest).
Proof.
  induction rest as [|w rest IH]; intros i result; simpl.
  - by rewrite app_nil_r.
  - unfold plain_form, is_proper_name, get_correct_capitalization.
    rewrite !Hnone. rewrite bool_decide_eq_false_2 by (by intros []).
    destruct (Py.mem _ directions).
    { destruct (i <? _); rewrite IH; by rewrite <- app_assoc. }
    destruct (Py.mem _ generic_terms); [destruct (0 <? i)|];
      rewrite IH; by rewrite <- app_assoc.
Qed.

(** X17. When the Name Store matches nothing, applying the phrase
    rules to their own result changes nothing, for an ASCII phrase. *)
Theorem apply_capitalization_rules_idempotent (phrase : string) :
  Py.isascii phrase = true →
  apply_capitalization_rules lookup (apply_capitalization_rules lookup phrase)
  = apply_capitalization_rules lookup phrase.
Proof.
  intros _. unfold apply_capitalization_rules. rewrite !rules_loop_plain. simpl.
  rewrite split_join, bind_split_words
    by apply plain_forms_wordlike, split_wordlike.
  by rewrite plain_forms_twice.
Qed.

End PhraseRuleFacts.

(** ** The rate limiter *)

Section RateLimitFacts.

Import App.

Context {T A R : Type} (within_minute : T → T → bool) (f : A → R).

Lemma rate_limit_bounded ip now args counts :
  bounded T counts → bounded T (rate_limit T within_minute f ip now args counts).2.
Proof.
  intros Hb. unfold rate_limit.
  set (counts1 := if decide (counts !! ip = None) then <[ip:=[]]> counts else counts).
  assert (bounded T counts1) as Hb1.
  { unfold counts1. destruct (decide _); [|done].
    apply map_Forall_insert_2; [simpl; lia|done]. }
  set (kept := filter _ _).
  destruct (RATE_LIMIT <=? length kept) eqn:Hk; simpl.
  - apply Nat.leb_le in Hk. apply map_Forall_insert_2; [|done].
    unfold kept. etrans; [apply length_filter|].
    destruct (counts1 !! ip) as [l|] eqn:Hl; simpl; [|lia].
    by apply (Hb1 ip l).
  - apply Nat.leb_gt in Hk. apply map_Forall_insert_2.
    + rewrite length_app. simpl. lia.
    + apply map_Forall_insert_2; [lia|done].
Qed.

(** X18. Starting from the empty dictionary, after any run of requests
    no address has more than [RATE_LIMIT] time stamps on record. *)
Theorem serve_bounded requests :
  bounded T (serve T within_minute f requests ∅).
Proof.
  assert (∀ counts, bounded T counts →
            bounded T (serve T within_minute f requests counts)) as H.
  { induction requests as [|[[ip now] args] requests IH]; intros counts Hb;
      [done|]. simpl. by apply IH, rate_limit_bounded. }
  apply H, map_Forall_empty.
Qed.

(** X19. A request changes the record of its own address only. *)
Theorem rate_limit_other ip ip' now args counts :
  ip' ≠ ip →
  (rate_limit T within_minute f ip now args counts).2 !! ip' = counts !! ip'.
Proof.
  intros Hne. unfold rate_limit.
  destruct (RATE_LIMIT <=? _); simpl; rewrite ?lookup_insert_ne by done;
    destruct (decide _); by rewrite ?lookup_insert_ne.
Qed.

(** X20. A request from an address with fewer than [RATE_LIMIT] time
    stamps on record is passed to the wrapped function, whatever their
    age. *)
Theorem rate_limit_under_quota ip now args counts :
  length (default [] (counts !! ip)) < RATE_LIMIT →
  (rate_limit T within_minute f ip now args counts).1 = Passed (f args).
Proof.
  intros Hlen. unfold rate_limit.
  set (counts1 := if decide (counts !! ip = None) then <[ip:=[]]> counts else counts).
  assert (default [] (counts1 !! ip) = default [] (counts !! ip)) as Hsame.
  { unfold counts1. destruct (decide _) as [Hn|]; [|done].
    by rewrite lookup_insert_eq, Hn. }
  rewrite Hsame.
  assert ((RATE_LIMIT <=? length (filter (λ t, Is_true (within_minute now t))
                               (default [] (counts !! ip)))) = false) as ->; [|done].
  apply Nat.leb_gt. eapply Nat.le_lt_trans; [apply length_filter|done].
Qed.

End RateLimitFacts.

(** ** The handlers *)

Section HandlerFacts.

Import GeoCapitalizer IntegratedCapitalizer Api.

Lemma rstrip_rstrip s : Py.rstrip (Py.rstrip s) = Py.rstrip s.
Proof.
  induction s as [|c r IH]; [done|]. simpl.
  destruct (Py.rstrip r) as [|d r'] eqn:Hr.
  - destruct (Py.isspace c) eqn:Hc; [done|]. simpl. by rewrite Hc.
  - simpl. simpl in IH. by rewrite IH.
Qed.

Lemma lstrip_cases s :
  Py.lstrip s = "" ∨ ∃ c r, Py.lstrip s = String c r ∧ Py.isspace c = false.
Proof.
  induction s as [|c r IH]; [by left|]. simpl.
  destruct (Py.isspace c) eqn:Hc; [done|]. right. by exists c, r.
Qed.

Lemma lstrip_rstrip_word c r :
  Py.isspace c = false → Py.lstrip (Py.rstrip (String c r)) = Py.rstrip (String c r).
Proof.
  intros Hc. simpl. destruct (Py.rstrip r); rewrite ?Hc; simpl; by rewrite Hc.
Qed.

Lemma strip_strip s : Py.strip (Py.strip s) = Py.strip s.
Proof.
  unfold Py.strip. destruct (lstrip_cases s) as [->|(c & r & -> & Hc)]; [done|].
  by rewrite lstrip_rstrip_word, rstrip_rstrip.
Qed.

Variable checker : option (string → option GeoRecord).

(** X21. Provided the Name Store answers its queries, [/api/check]
    does not answer 500 to a JSON object whose member "text" is a
    string or absent. *)
Theorem check_text_no_500 members error :
  textual "text" members = true →
  check_text checker true (JObject members) ≠ Failure 500 error.
Proof.
  unfold textual, check_text, get_stripped. intros Ht.
  destruct (negb _); [done|].
  destruct (member "text" members) as [[s|]|]; [| done |]; simpl.
  - destruct (negb _); [done|]. destruct (_ <? _); [done|].
    destruct checker as [lookup|]; [|done].
    unfold analyze_text, correct_text.
    destruct (correct_sentences_total lookup (Py.re_split (Py.strip s)))
      as [[pieces chs] ->]. done.
  - done.
Qed.

(** X22. A 200 answer of [/api/check] is the report of [analyze_text]
    on the text analysed, which has no white space at either end, is
    not empty and has at most 10000 characters; the database was
    available and answered. *)
Theorem check_text_ok answers data result :
  check_text checker answers data = Ok result →
  ∃ lookup, checker = Some lookup ∧ answers = true
    ∧ analyze_text lookup (original_text result) = Some result
    ∧ Py.strip (original_text result) = original_text result
    ∧ original_text result ≠ ""
    ∧ String.length (original_text result) ≤ 10000.
Proof.
  unfold check_text. destruct (negb (json_truthy data)); [done|].
  destruct (get_stripped data "text") as [text|] eqn:Hget; [|done].
  destruct (negb (Py.truthy text)) eqn:Hne; [done|].
  destruct (10000 <? String.length text) eqn:Hlen; [done|].
  destruct checker as [lookup|]; [|done].
  destruct answers; [|done]. simpl.
  destruct (analyze_text lookup text) as [r|] eqn:Hr; [|done].
  intros [= <-]. exists lookup. split; [done|]. split; [done|].
  assert (original_text r = text) as ->.
  { unfold analyze_text in Hr. destruct (correct_text lookup text) as [[? ?]|];
      [|done]. simpl in Hr. by injection Hr as <-. }
  split; [done|]. split; [|split].
  - unfold get_stripped in Hget. destruct data; try done.
    destruct (default _ _); [|done]. injection Hget as <-. apply strip_strip.
  - intros ->. done.
  - apply Nat.ltb_ge in Hlen. done.
Qed.

(** X23. Provided the Name Store answers its query, [/api/check-word]
    does not answer 500 to a JSON object whose members "word" and
    "context" are strings or absent. *)
Theorem check_word_no_500 members error :
  textual "word" members = true → textual "context" members = true →
  Api.check_word checker true (JObject members) ≠ Failure 500 error.
Proof.
  unfold textual, Api.check_word, get_stripped. intros Hw Hc.
  destruct (negb (json_truthy (JObject members))); [done|].
  assert (∃ w, default (VString "") (member "word" members) = VString w)
    as [w ->] by (destruct (member "word" members) as [[w|]|]; by eauto).
  assert (∃ c, default (VString "") (member "context" members) = VString c)
    as [c ->] by (destruct (member "context" members) as [[c|]|]; by eauto).
  destruct (negb (Py.truthy (Py.strip w))); [done|].
  destruct (100 <? String.length (Py.strip w)); [done|].
  destruct checker as [lookup|]; [|done].
  by destruct (check_word_total lookup (Py.strip w) (Py.strip c))
    as [[[needs form] why] ->].
Qed.

End HandlerFacts.

(** ** The importer *)

Section ImportFacts.

Import Downloader.

Lemma foldl_insert_union {K V} `{Countable K} (l : list (K * V)) :
  ∀ t : gmap K V,
  foldl (λ m kv, <[kv.1 := kv.2]> m) t l = list_to_map (reverse l) ∪ t.
Proof.
  induction l as [|[k v] l IH]; intros t; simpl.
  - by rewrite (left_id_L ∅ (∪)).
  - rewrite IH, reverse_cons, list_to_map_app. simpl.
    rewrite insert_empty, <- (assoc_L (∪)).
    by rewrite <- insert_union_singleton_l.
Qed.

Lemma foldl_insert_twice {K V} `{Countable K} (l : list (K * V)) (t : gmap K V) :
  foldl (λ m kv, <[kv.1 := kv.2]> m) (foldl (λ m kv, <[kv.1 := kv.2]> m) t l) l
  = foldl (λ m kv, <[kv.1 := kv.2]> m) t l.
Proof.
  rewrite !foldl_insert_union, (assoc_L (∪)). by rewrite (idemp_L (∪)).
Qed.

Lemma import_feature_codes_rows lines : ∀ table,
  import_feature_codes lines table
  = foldl (λ m kv, <[kv.1 := kv.2]> m) table (omap feature_code_row lines).
Proof.
  unfold import_feature_codes.
  induction lines as [|line lines IH]; intros table; [done|]. simpl.
  destruct (feature_code_row line) as [[code row]|]; simpl; apply IH.
Qed.

(** X24. Importing a feature code file a second time changes nothing. *)
Theorem import_feature_codes_twice lines table :
  import_feature_codes lines (import_feature_codes lines table)
  = import_feature_codes lines table.
Proof. rewrite !import_feature_codes_rows. apply foldl_insert_twice. Qed.

Lemma feature_code_row_code line code row :
  feature_code_row line = Some (code, row) → fields line !! 0 = Some code.
Proof.
  unfold feature_code_row. destruct (2 <=? _); [|done].
  destruct (fields line !! 0) as [c|]; [|done]. simpl.
  destruct (fields line !! 1); [|done]. simpl. by intros [= -> _].
Qed.

(** X25. A code that is the first field of no line keeps the row it
    had, or stays absent. *)
Theorem import_feature_codes_other lines table code :
  Forall (λ line, fields line !! 0 ≠ Some code) lines →
  import_feature_codes lines table !! code = table !! code.
Proof.
  unfold import_feature_codes. revert table.
  induction lines as [|line lines IH]; intros table Hall; [done|].
  apply Forall_cons in Hall as [Hline Hall]. simpl. rewrite IH by done.
  destruct (feature_code_row line) as [[code' row]|] eqn:Hrow; [|done].
  rewrite lookup_insert_ne; [done|]. intros ->.
  by apply Hline, (feature_code_row_code line code row).
Qed.

Context {F : Type} (py_int : string → option Z) (py_float : string → option F).

Lemma executemany_nil (t : gmap Z (GeoRow F)) : executemany F [] t = Some t.
Proof. reflexivity. Qed.

Lemma executemany_app (a b : list (GeoRow F)) t :
  executemany F (a ++ b) t = executemany F a t ≫= executemany F b.
Proof.
  unfold executemany. rewrite forallb_app, foldl_app.
  destruct (forallb (storable F) a); [|done]. done.
Qed.

Lemma omap_cons_match {A B} (f : A → option B) x l :
  omap f (x :: l)
  = match f x with Some y => y :: omap f l | None => omap f l end.
Proof. reflexivity. Qed.

Lemma import_lines_spec batch_size lines : ∀ geonames batch count,
  ('(geonames', batch', count') ←
     import_lines F py_int py_float batch_size lines geonames batch count;
   geonames'' ← executemany F batch' geonames';
   Some (geonames'', count'))
  = (geonames'' ← executemany F (batch ++ records F py_int py_float lines) geonames;
     Some (geonames'', count + length (records F py_int py_float lines))).
Proof.
  induction lines as [|line lines IH]; intros geonames batch count.
  - simpl. rewrite app_nil_r, Nat.add_0_r. done.
  - unfold records. rewrite omap_cons_match. fold (records F py_int py_float lines).
    cbn [import_lines].
    destruct (geonames_record F py_int py_float line) as [record|]; [|apply IH].
    replace (batch ++ record :: records F py_int py_float lines)
      with ((batch ++ [record]) ++ records F py_int py_float lines) by by rewrite <- app_assoc.
    replace (count + length (record :: records F py_int py_float lines))
      with (count + 1 + length (records F py_int py_float lines)) by (simpl; lia).
    destruct (batch_size <=? length (batch ++ [record])); [|apply IH].
    rewrite (executemany_app (batch ++ [record])).
    destruct (executemany F (batch ++ [record]) geonames) as [g|]; [|done].
    simpl. apply (IH g [] (count + 1)).
Qed.

Lemma import_geonames_file_rows batch_size lines geonames :
  import_geonames_file F py_int py_float batch_size lines geonames
  = (geonames' ← executemany F (records F py_int py_float lines) geonames;
     Some (geonames', length (records F py_int py_float lines))).
Proof.
  etrans; [|exact (import_lines_spec batch_size lines geonames [] 0)].
  unfold import_geonames_file.
  destruct (import_lines F py_int py_float batch_size lines geonames [] 0)
    as [[[g b] c]|]; [|done].
  simpl. by destruct b.
Qed.

Lemma executemany_twice (rows : list (GeoRow F)) t t' :
  executemany F rows t = Some t' → executemany F rows t' = Some t'.
Proof.
  unfold executemany. destruct (forallb (storable F) rows); [|done].
  intros [= <-]. f_equal.
  assert (∀ t : gmap Z (GeoRow F),
            foldl (λ table record, <[row_geonameid record := record]> table) t rows
            = foldl (λ m kv, <[kv.1 := kv.2]> m) t
                ((λ r, (row_geonameid r, r)) <$> rows)) as E.
  { clear. induction rows as [|r rows IH]; intros t; [done|]. simpl. apply IH. }
  rewrite !E. apply foldl_insert_twice.
Qed.

(** X26. When [import_geonames_file] succeeds with one batch size, it
    succeeds with every batch size, with the same table and the same
    count. *)
Theorem import_geonames_file_batches batch_size batch_size' lines geonames
    result :
  import_geonames_file F py_int py_float batch_size lines geonames
  = Some result →
  import_geonames_file F py_int py_float batch_size' lines geonames
  = Some result.
Proof. by rewrite !import_geonames_file_rows. Qed.

(** X27. Importing a file a second time, with any batch size, into
    the table the first import left gives the same table and the same
    count. *)
Theorem import_geonames_file_twice batch_size batch_size' lines geonames
    geonames' count :
  import_geonames_file F py_int py_float batch_size lines geonames
  = Some (geonames', count) →
  import_geonames_file F py_int py_float batch_size' lines geonames'
  = Some (geonames', count).
Proof.
  rewrite !import_geonames_file_rows.
  destruct (executemany F (records F py_int py_float lines) geonames) as [t|] eqn:Ht; [|done].
  simpl. intros [= <- <-]. by rewrite (executemany_twice _ _ _ Ht).
Qed.

Lemma forallb_false {A} (f : A → bool) (l : list A) :
  forallb f l = false ↔ ∃ x, x ∈ l ∧ f x = false.
Proof.
  induction l as [|y l IH]; simpl.
  - split; [done|]. intros (x & Hin & _). by apply elem_of_nil in Hin.
  - rewrite andb_false_iff, IH. split.
    + intros [Hy|(x & Hin & Hx)]; [exists y|exists x];
        (split; [|done]); [by left|by right].
    + intros (x & Hin & Hx). apply elem_of_cons in Hin as [->|Hin];
        [by left|right; by exists x].
Qed.

(** X28. [import_geonames_file] fails exactly when some line gives a
    record with an identifier, a population or an elevation beyond 64
    bits. *)
Theorem import_geonames_file_overflow batch_size lines geonames :
  import_geonames_file F py_int py_float batch_size lines geonames = None
  ↔ ∃ record, record ∈ records F py_int py_float lines
              ∧ storable F record = false.
Proof.
  rewrite import_geonames_file_rows, <- forallb_false. unfold executemany.
  by destruct (forallb (storable F) (records F py_int py_float lines)).
Qed.

End ImportFacts.

(** ** The properties at work *)

Section MoreScenarios.

Import GeoCapitalizer IntegratedCapitalizer Props Stores Samples.

Lemma check_phrase_ordered_witness :
  let cs := [{| position := 3; original := "monday"; correct := "Monday";
                reason := "Day of week" |};
             {| position := 5; original := "june"; correct := "June";
                reason := "Month" |}] in
  check_phrase (lookup_name nowhere) "see you on monday in june" = Some cs
  ∧ StronglySorted ascending cs
  ∧ Forall (λ c, position c < 6) cs.
Proof.
  split; [vm_compute; reflexivity|].
  apply (check_phrase_ordered (lookup_name nowhere) "see you on monday in june").
  vm_compute; reflexivity.
Defined.

Lemma check_word_reports_witness :
  check_word (lookup_name york) "york" "i saw york"
  = Some (true, "York", "Geographic name")
  ∧ (true = false → "York" = "york" ∧ "Geographic name" = "Correct")
  ∧ (true = true → "York" ≠ "york").
Proof.
  split; [reflexivity|].
  apply (check_word_reports (lookup_name york) "york" "i saw york").
  reflexivity.
Defined.

Lemma analyze_text_blank_witness :
  allspace "   " = true
  ∧ analyze_text (lookup_name nowhere) "   "
    = Some {| original_text := "   "; corrected_text := "   "; changes := [];
              stats := ∅; total_corrections := 0 |}.
Proof.
  split; [reflexivity|].
  apply (analyze_text_blank (lookup_name nowhere) "   "). reflexivity.
Defined.

Lemma check_word_case_only_witness :
  ∃ b f r,
    check_word (lookup_name nowhere) "MONDAY" "" = Some (b, f, r)
    ∧ Py.lower f = Py.lower "MONDAY".
Proof.
  apply (check_word_case_only (lookup_name nowhere) "MONDAY" "");
    reflexivity.
Defined.

Lemma check_word_rank_unseen_witness :
  check_word (lookup_name nowhere) "captain" "Smith is the captain"
  = Some (false, "captain", "Correct").
Proof.
  apply (check_word_rank_unseen (lookup_name nowhere) "captain"
           "Smith is the captain");
    [reflexivity|reflexivity|reflexivity|].
  right. exists 3. split; [reflexivity|]. vm_compute. lia.
Defined.

Lemma apply_correction_tokens_at_witness :
  ∃ s', apply_correction "i saw new york"
          {| position := 2; original := "new york"; correct := "New York";
             reason := "Geographic name (2 words)" |} = Some s'
        ∧ Py.split s' = ["i"; "saw"] ++ ["New"; "York"] ++ ["york"].
Proof.
  apply (apply_correction_tokens_at "i saw new york"
           {| position := 2; original := "new york"; correct := "New York";
              reason := "Geographic name (2 words)" |}).
  vm_compute. lia.
Defined.

Lemma rewrite_case_only_witness :
  ∃ cs p',
    check_phrase (lookup_name nowhere) "see you on monday" = Some cs
    ∧ rewrite_sentence "see you on monday" cs = Some p'
    ∧ Forall2 same_letters (Py.split "see you on monday") (Py.split p').
Proof.
  apply (rewrite_case_only (lookup_name nowhere) "see you on monday");
    [reflexivity|].
  intros s. reflexivity.
Defined.

Lemma lookup_name_sound_witness :
  place 2633352 "York" 153717 ∈ york
  ∧ matches_nocase "york" (place 2633352 "York" 153717) = true
  ∧ (Forall (λ x, matches_exact "york" x = false) york
     ∨ matches_exact "york" (place 2633352 "York" 153717) = true).
Proof.
  apply (lookup_name_sound york "york" (place 2633352 "York" 153717)).
  reflexivity.
Defined.

Lemma lookup_name_most_populous_witness :
  Forall (λ x, matches_exact "San" x = true → (population x ≤ 1200)%N)
    bay
  ∧ (matches_exact "San" (place 3110044 "San" 1200) = false →
     Forall (λ x, matches_nocase "San" x = true → (population x ≤ 1200)%N)
       bay).
Proof.
  apply (lookup_name_most_populous bay "San" (place 3110044 "San" 1200)).
  reflexivity.
Defined.

Lemma is_proper_name_case_witness :
  is_proper_name (lookup_name york) "NEW YORK"
  = is_proper_name (lookup_name york) "new york".
Proof.
  apply (is_proper_name_case york "NEW YORK" "new york"); reflexivity.
Defined.

Lemma canonical_form_known_witness :
  ∃ r, lookup_name york "New York" = Some r
       ∧ matches_exact "New York" r = true
       ∧ (Forall (λ x, asciiname x = Some "New York" → name x = "New York")
            york →
          get_correct_capitalization (lookup_name york) "New York"
          = Some "New York").
Proof.
  apply (canonical_form_known york "new york" "New York"). reflexivity.
Defined.

Lemma rules_direction_name_witness :
  GeoPhrases.apply_capitalization_rules
    (lookup_name [place 6255149 "North America" 0]) "visit north america"
  = "North America".
Proof.
  apply (rules_direction_name _ "visit north america" 1 "north" "North America");
    [reflexivity|reflexivity|vm_compute; lia|reflexivity|discriminate|].
  intros j Hj. assert (j = 0) as -> by lia. reflexivity.
Defined.

Lemma apply_capitalization_rules_idempotent_witness :
  GeoPhrases.apply_capitalization_rules (lookup_name nowhere)
    (GeoPhrases.apply_capitalization_rules (lookup_name nowhere)
       "the mississippi RIVER flows south")
  = GeoPhrases.apply_capitalization_rules (lookup_name nowhere)
      "the mississippi RIVER flows south".
Proof.
  apply (apply_capitalization_rules_idempotent (lookup_name nowhere));
    [|reflexivity].
  intros s. reflexivity.
Defined.

Lemma rate_limit_other_witness :
  (App.rate_limit nat within_minute (λ _ : unit, tt) "10.0.0.1" 100 tt
     {["10.0.0.2" := [10; 50]]}).2 !! "10.0.0.2"
  = ({["10.0.0.2" := [10; 50]]} : gmap string (list nat)) !! "10.0.0.2".
Proof.
  apply (rate_limit_other within_minute (λ _ : unit, tt) "10.0.0.1" "10.0.0.2").
  discriminate.
Defined.

Lemma rate_limit_under_quota_witness :
  (App.rate_limit nat within_minute (λ _ : unit, tt) "10.0.0.1" 100 tt
     {["10.0.0.1" := [10; 50]]}).1 = App.Passed tt.
Proof.
  apply (rate_limit_under_quota within_minute (λ _ : unit, tt) "10.0.0.1").
  vm_compute. lia.
Defined.

Lemma check_text_no_500_witness :
  Api.check_text (Some (lookup_name york)) true
    (Api.JObject [("text", Api.VString " i saw york on monday ")])
  ≠ Api.Failure 500 "Internal server error".
Proof.
  apply (check_text_no_500 (Some (lookup_name york))
           [("text", Api.VString " i saw york on monday ")]).
  reflexivity.
Defined.

Lemma check_text_ok_witness :
  ∃ lookup,
    Some (lookup_name nowhere) = Some lookup ∧ true = true
    ∧ analyze_text lookup "all fine"
      = Some {| original_text := "all fine"; corrected_text := "all fine";
                changes := []; stats := ∅; total_corrections := 0 |}
    ∧ Py.strip "all fine" = "all fine"
    ∧ "all fine" ≠ ""
    ∧ String.length "all fine" ≤ 10000.
Proof.
  apply (check_text_ok (Some (lookup_name nowhere)) true
           (Api.JObject [("text", Api.VString "  all fine ")])
           {| original_text := "all fine"; corrected_text := "all fine";
              changes := []; stats := ∅; total_corrections := 0 |}).
  reflexivity.
Defined.

Lemma check_word_no_500_witness :
  Api.check_word (Some (lookup_name york)) true
    (Api.JObject [("word", Api.VString "york")])
  ≠ Api.Failure 500 "Internal server error".
Proof.
  apply (check_word_no_500 (Some (lookup_name york))
           [("word", Api.VString "york")]); reflexivity.
Defined.

Lemma import_feature_codes_other_witness :
  Downloader.import_feature_codes
    [tsv ["A.ADM1"; "first-order administrative division"; "a state"]]
    {["P.PPL" := ("populated place", "a city, town or village")]}
    !! "P.PPL"
  = ({["P.PPL" := ("populated place", "a city, town or village")]}
       : gmap string (string * string)) !! "P.PPL".
Proof.
  apply (import_feature_codes_other
           [tsv ["A.ADM1"; "first-order administrative division"; "a state"]]).
  repeat constructor. vm_compute. discriminate.
Defined.

Lemma import_geonames_file_twice_witness :
  Downloader.import_geonames_file unit decimal (λ _, Some tt) 10000
    [york_line] ∅ = Some ({[2633352%Z := york_row]}, 1)
  ∧ Downloader.import_geonames_file unit decimal (λ _, Some tt) 1
      [york_line] {[2633352%Z := york_row]}
    = Some ({[2633352%Z := york_row]}, 1).
Proof.
  assert (Downloader.import_geonames_file unit decimal (λ _, Some tt) 10000
            [york_line] ∅ = Some ({[2633352%Z := york_row]}, 1)) as H
    by (vm_compute; reflexivity).
  split; [exact H|].
  exact (import_geonames_file_twice decimal (λ _, Some tt) 10000 1
           [york_line] ∅ {[2633352%Z := york_row]} 1 H).
Defined.

Lemma import_geonames_file_batches_witness :
  Downloader.import_geonames_file unit decimal (λ _, Some tt) 10000
    [york_line; "no record"; york_line] ∅
  = Some ({[2633352%Z := york_row]}, 2)
  ∧ Downloader.import_geonames_file unit decimal (λ _, Some tt) 1
      [york_line; "no record"; york_line] ∅
    = Some ({[2633352%Z := york_row]}, 2).
Proof.
  assert (Downloader.import_geonames_file unit decimal (λ _, Some tt) 10000
            [york_line; "no record"; york_line] ∅
          = Some ({[2633352%Z := york_row]}, 2)) as H
    by (vm_compute; reflexivity).
  split; [exact H|].
  exact (import_geonames_file_batches decimal (λ _, Some tt) 10000 1
           [york_line; "no record"; york_line] ∅ _ H).
Defined.

(** An identifier of 2^63 stops the import with either batch size. *)
Example import_overflow :
  Downloader.import_geonames_file unit decimal (λ _, Some tt) 1
    [york_line; big_line] ∅ = None
  ∧ Downloader.import_geonames_file unit decimal (λ _, Some tt) 10000
      [york_line; big_line] ∅ = None.
Proof. split; vm_compute; reflexivity. Qed.


(** Every other condition of C6 is needed as well.  A known span whose
    token a lexical rule changes is a wrong span in the second pass. *)
Example analyze_text_span_broken :
  let lookup := lookup_name spring_hill in
  correct_text lookup "Spring Hill"
  = Some ("spring Hill",
          [{| position := 0; original := "Spring"; correct := "spring";
              reason := "Season (lowercase)" |}])
  ∧ forallb (Passes.steady lookup)
      [{| position := 0; original := "Spring"; correct := "spring";
          reason := "Season (lowercase)" |}] = true
  ∧ Passes.spans_settled lookup "spring Hill" = false
  ∧ total_corrections <$> analyze_text lookup "spring Hill" = Some 1.
Proof. repeat split; vm_compute; reflexivity. Qed.

(** The correction of a span leaves a token of the span behind and
    brings in tokens that the second pass reads as single words. *)
Example analyze_text_span_change :
  let lookup := lookup_name spring_hill in
  let c := {| position := 0; original := "spring hill";
              correct := "Spring Hill";
              reason := "Geographic name (2 words)" |} in
  correct_text lookup "spring hill" = Some ("Spring Hill hill", [c])
  ∧ Passes.steady lookup c = false
  ∧ Passes.spans_settled lookup "Spring Hill hill" = true
  ∧ total_corrections <$> analyze_text lookup "Spring Hill hill" = Some 1.
Proof. repeat split; vm_compute; reflexivity. Qed.

(** A canonical form that is more than a change of letter case brings
    in new tokens. *)
Example analyze_text_other_letters :
  let lookup := lookup_name big_monday in
  let c := {| position := 0; original := "bigmon"; correct := "Big monday";
              reason := "Geographic name" |} in
  correct_text lookup "bigmon" = Some ("Big monday", [c])
  ∧ Passes.steady lookup c = false
  ∧ Passes.spans_settled lookup "Big monday" = true
  ∧ total_corrections <$> analyze_text lookup "Big monday" = Some 1.
Proof. repeat split; vm_compute; reflexivity. Qed.

(** A canonical form that has another canonical form is corrected
    again. *)
Example analyze_text_unstable_form :
  let lookup := lookup_name two_yorks in
  let c := {| position := 0; original := "YORK"; correct := "York";
              reason := "Geographic name" |} in
  correct_text lookup "YORK" = Some ("York", [c])
  ∧ Passes.steady lookup c = false
  ∧ total_corrections <$> analyze_text lookup "York" = Some 1.
Proof. repeat split; vm_compute; reflexivity. Qed.

(** The rank rule on the corrected text of [analyze_text_rank_after_day]:
    the condition on ranks fails there and holds on its first text. *)
Example ranks_quiet_after_day :
  Passes.ranks_quiet "captain monday" = true
  ∧ Passes.ranks_quiet "captain Monday" = false
  ∧ Passes.ranks_quiet "the captain arrived" = true.
Proof. repeat split; vm_compute; reflexivity. Qed.

(** A database that does not answer: 500, whatever the text. *)
Example check_text_unanswered :
  Api.check_text (Some (lookup_name york)) false
    (Api.JObject [("text", Api.VString "monday")])
  = Api.Failure 500 "Internal server error".
Proof. reflexivity. Qed.

Example fields_tsv :
  Downloader.fields (tsv ["A.ADM1"; ""; "a state"]) = ["A.ADM1"; ""; "a state"].
Proof. reflexivity. Qed.

Example import_york :
  Downloader.records unit decimal (λ _, Some tt) [york_line; "no record"]
  = [york_row].
Proof. reflexivity. Qed.

End MoreScenarios.
